(** * courier-lhc-publications: the INSPIRE query layer

    A shallow embedding of [courier-lhc-publications.py]: the three
    decorated query functions ([perform_inspire_literature_search],
    [perform_inspire_literature_aggregation],
    [count_inspire_literature_search]) and [get_citations], over a model of
    the [requests] session, of parsed JSON values and of the
    [backoff.on_exception] decorator. *)

From Stdlib Require Import Ascii.
From stdpp Require Import base strings gmap list pretty.

Local Open Scope Z_scope.
Local Open Scope string_scope.
Local Open Scope list_scope.

(** ** Parsed JSON values

    What [response.json()] returns.  A [dict] is kept as the list of its
    items in insertion order (iterating a [dict] visits its keys in that
    order); a parsed [dict] has no repeated key, and [assoc] reads the first
    binding.  A [float] is carried as its literal: the program only passes
    such values on. *)

#[local] Set Warnings "-register-all".

Inductive json : Type :=
| JNull
| JBool (b : bool)
| JInt (n : Z)
| JFloat (lit : string)
| JStr (s : string)
| JArr (xs : list json)
| JObj (kvs : list (string * json)).

Fixpoint assoc {A} (k : string) (kvs : list (string * A)) : option A :=
  match kvs with
  | [] => None
  | (k', v) :: kvs' => if String.eqb k' k then Some v else assoc k kvs'
  end.

(** ** Exceptions *)

Inductive exn : Type :=
| HTTPError (status_code : Z)     (* requests.exceptions.HTTPError *)
| RequestException (msg : string) (* any other failure of [session.get] *)
| JSONDecodeError
| KeyError (key : string)
| TypeError
| AttributeError
| StopIteration
| UnboundLocalError.

Definition is_HTTPError (e : exn) : bool :=
  match e with HTTPError _ => true | _ => false end.

(** ** Python operations on parsed values *)

(** [v[k]] for a string key [k]. *)
Definition getitem (v : json) (k : string) : exn + json :=
  match v with
  | JObj kvs =>
      match assoc k kvs with
      | Some x => inr x
      | None => inl (KeyError k)
      end
  | _ => inl TypeError
  end.

(** [v.get(k, d)]: only a [dict] has the method. *)
Definition dict_get (v : json) (k : string) (d : json) : exn + json :=
  match v with
  | JObj kvs => inr (default d (assoc k kvs))
  | _ => inl AttributeError
  end.

Fixpoint is_substring (p s : string) : bool :=
  String.prefix p s ||
  match s with
  | EmptyString => false
  | String _ s' => is_substring p s'
  end.

Definition is_JStr (k : string) (v : json) : bool :=
  match v with JStr s => String.eqb s k | _ => false end.

(** [k in v] for a string [k]: key membership in a [dict], element
    membership in a [list], substring test in a [str]. *)
Definition contains (k : string) (v : json) : exn + bool :=
  match v with
  | JObj kvs => inr (bool_decide (is_Some (assoc k kvs)))
  | JArr xs => inr (existsb (is_JStr k) xs)
  | JStr s => inr (is_substring k s)
  | _ => inl TypeError
  end.

Fixpoint chars (s : string) : list json :=
  match s with
  | EmptyString => []
  | String c s' => JStr (String c EmptyString) :: chars s'
  end.

(** The items visited by [for x in v]. *)
Definition py_iter (v : json) : exn + list json :=
  match v with
  | JArr xs => inr xs
  | JObj kvs => inr (map (λ kv, JStr kv.1) kvs)
  | JStr s => inr (chars s)
  | _ => inl TypeError
  end.

(** ** Requests and responses *)

Inductive pval : Type :=
| PInt (n : Z)
| PStr (s : string).

(** The argument of [session.get] is whatever Python value the program
    passes (the endpoint constant, or the value found under
    [links.next]); [req_params] is [None] when [params=] is not given. *)
Record request : Type := Build_request {
  req_url : json;
  req_params : option (gmap string pval)
}.

(** [json_body] is [None] when the body is not JSON. *)
Record response : Type := Build_response {
  status_code : Z;
  json_body : option json
}.

(** [raise_for_status] raises for the codes 400 to 599. *)
Definition is_error_status (code : Z) : bool :=
  ((400 <=? code) && (code <? 600))%Z.

Definition raise_for_status (r : response) : exn + unit :=
  if is_error_status (status_code r)
  then inl (HTTPError (status_code r))
  else inr tt.

Definition response_json (r : response) : exn + json :=
  match json_body r with
  | Some j => inr j
  | None => inl JSONDecodeError
  end.

(** Sequencing of steps that may raise. *)
Definition and_then {A B} (r : exn + A) (f : A → exn + B) : exn + B :=
  match r with inr a => f a | inl e => inl e end.

(** ** Computations that talk to the server

    The state is the log of the requests issued so far.  The remote side is
    a function of that history and of the current request: it either makes
    [session.get] raise, or provides a response. *)

Definition server_t : Type := list request → request → exn + response.

Definition M (A : Type) : Type := list request → (exn + A) * list request.

Definition ret {A} (a : A) : M A := λ log, (inr a, log).
Definition raise {A} (e : exn) : M A := λ log, (inl e, log).
Definition bind {A B} (m : M A) (f : A → M B) : M B :=
  λ log,
    match m log with
    | (inr a, log') => f a log'
    | (inl e, log') => (inl e, log')
    end.
Definition lift {A} (r : exn + A) : M A :=
  match r with inr a => ret a | inl e => raise e end.

Definition INSPIRE_LITERATURE_API_ENDPOINT : string :=
  "https://inspirehep.net/api/literature".
Definition INSPIRE_FACET_API_ENDPOINT : string :=
  "https://inspirehep.net/api/literature/facets".

Declare Scope py_scope.
Delimit Scope py_scope with py.
Notation "'let!' x ':=' m 'in' k" := (bind m (λ x, k))
  (at level 10, x name, m at level 100, k at level 200) : py_scope.
Notation "'let?' x ':=' r 'in' k" := (and_then r (λ x, k))
  (at level 10, x name, r at level 100, k at level 200) : py_scope.

Local Open Scope py_scope.

(** [YEARS = range(2008, 2021)] *)
Definition py_range (a b : Z) : list Z := seqZ a (b - a).
Definition YEARS : list Z := py_range 2008 2021.

(** ** The retry decorator

    [backoff.on_exception(expo, HTTPError, max_tries=n)] wraps a function in
    a loop: the wrapped call is tried; a result is returned as it is; an
    exception that is not an [HTTPError] propagates; an [HTTPError]
    propagates when the number of tries has reached [max_tries], and
    otherwise the loop sleeps and tries again.  [more] is the number of
    tries still allowed after the current one.  The sleep has no effect on
    the request log and is left out. *)

Fixpoint retry {A} (more : nat) (target : M A) : M A :=
  λ log,
    match target log with
    | (inr a, log') => (inr a, log')
    | (inl e, log') =>
        if is_HTTPError e then
          match more with
          | O => (inl e, log')
          | S more' => retry more' target log'
          end
        else (inl e, log')
    end.

Definition on_exception {A} (max_tries : nat) (target : M A) : M A :=
  retry (Nat.pred max_tries) target.

(** [facets = facets or {}] *)
Definition facets_or_empty (facets : option (gmap string string))
  : gmap string string :=
  match facets with
  | Some f => if decide (f = ∅) then ∅ else f
  | None => ∅
  end.

(** [{"q": query, **facets}] and [{"q": query, "size": 1, **facets}]: the
    items of [facets] are written last, over the entries already there.
    The maps keep the entries, not the order in which they were written. *)
Definition search_params (query : string) (facets : gmap string string)
  : gmap string pval :=
  (PStr <$> facets) ∪ {[ "q" := PStr query ]}.

Definition count_params (query : string) (facets : gmap string string)
  : gmap string pval :=
  (PStr <$> facets) ∪ <[ "size" := PInt 1 ]> {[ "q" := PStr query ]}.

Definition search_request (query : string) (facets : option (gmap string string))
  : request :=
  Build_request (JStr INSPIRE_LITERATURE_API_ENDPOINT)
                (Some (search_params query (facets_or_empty facets))).

Definition aggregation_request (query : string) (facets : option (gmap string string))
  : request :=
  Build_request (JStr INSPIRE_FACET_API_ENDPOINT)
                (Some (search_params query (facets_or_empty facets))).

Definition count_request (query : string) (facets : option (gmap string string))
  : request :=
  Build_request (JStr INSPIRE_LITERATURE_API_ENDPOINT)
                (Some (count_params query (facets_or_empty facets))).

(** [session.get(url)] for a next link. *)
Definition link_request (url : json) : request := Build_request url None.

(** The state of a generator made by [perform_inspire_literature_search]:
    not started yet (holding its arguments); suspended at a [yield] with
    the current page [content] and the items its [for] loop has still to
    visit (the two [yield]s, lines 58 and 66, are both followed by the rest
    of their [for] loop and then by the [while] test of line 60); or
    finished, by returning or by raising. *)
Inductive generator : Type :=
| GCreated (query : string) (facets : option (gmap string string))
| GSuspended (content : json) (pending : list json)
| GFinished.

(** What [next(g)] gives. *)
Inductive next_result : Type :=
| Yielded (record : json)
| Stopped
| Raised (e : exn).

Section Client.

Variable server : server_t.

Definition session_get (rq : request) : M response :=
  λ log, (server log rq, log ++ [rq]).

(** The three lines shared by every call site:
    [response = session.get(...); response.raise_for_status();
     content = response.json()]. *)
Definition get_content (rq : request) : M json :=
  let! response := session_get rq in
  let! _ := lift (raise_for_status response) in
  lift (response_json response).

(** *** [perform_inspire_literature_aggregation] *)

Definition perform_inspire_literature_aggregation_body
    (query : string) (facets : option (gmap string string)) : M json :=
  let! content := get_content (aggregation_request query facets) in
  lift (getitem content "aggregations").

Definition perform_inspire_literature_aggregation
    (query : string) (facets : option (gmap string string)) : M json :=
  on_exception 10 (perform_inspire_literature_aggregation_body query facets).

(** *** [count_inspire_literature_search] *)

Definition count_inspire_literature_search_body
    (query : string) (facets : option (gmap string string)) : M json :=
  let! content := get_content (count_request query facets) in
  lift (let? hits := getitem content "hits" in getitem hits "total").

Definition count_inspire_literature_search
    (query : string) (facets : option (gmap string string)) : M json :=
  on_exception 10 (count_inspire_literature_search_body query facets).

(** *** [get_citations] *)

(** [years = iter(YEARS); first_year = next(years);
     for last_year in years: pass]: [next] raises on an exhausted
    iterator, and [last_year] stays unbound when the loop body never
    runs. *)
Definition first_and_last (years : list Z) : exn + (Z * Z) :=
  match years with
  | [] => inl StopIteration
  | first_year :: years' =>
      match fold_left (λ _ year, Some year) years' None with
      | Some last_year => inr (first_year, last_year)
      | None => inl UnboundLocalError
      end
  end.

Definition citation_facets (first_year last_year : Z) : gmap string string :=
  <[ "facet_name" := "citation-summary" ]>
    {[ "earliest_date" := pretty first_year +:+ "--" +:+ pretty last_year ]}.

Definition get_citations (query : string) : M (json * json) :=
  let! fl := lift (first_and_last YEARS) in
  let! result :=
    perform_inspire_literature_aggregation query
      (Some (citation_facets fl.1 fl.2)) in
  lift (let? summary := getitem result "citation_summary" in
        let? citations := getitem summary "citations" in
        let? buckets := getitem citations "buckets" in
        let? citation_stats := getitem buckets "all" in
        let? count := getitem citation_stats "citations_count" in
        let? total := getitem count "value" in
        let? avg := getitem citation_stats "average_citations" in
        let? average := getitem avg "value" in
        inr (total, average)).

(** *** [perform_inspire_literature_search] *)

(** [content["hits"]["hits"]], as the items a [for] loop visits. *)
Definition hits_items (content : json) : exn + list json :=
  let? hits := getitem content "hits" in
  let? hits' := getitem hits "hits" in
  py_iter hits'.

(** ["next" in content.get("links", {})] *)
Definition has_next (content : json) : exn + bool :=
  let? links := dict_get content "links" (JObj []) in
  contains "next" links.

(** [content["links"]["next"]] *)
Definition next_url (content : json) : exn + json :=
  let? links := getitem content "links" in
  getitem links "next".

(** One page: the request, and the start of the [for] loop over it. *)
Definition fetch_page (rq : request) : M (json * list json) :=
  let! content := get_content rq in
  let! items := lift (hits_items content) in
  ret (content, items).

(** The [while] loop of line 60, run from its test until the next [yield],
    the end of the function or an exception.  A page without items leads
    straight back to the test, so the number of rounds is not bounded by
    the code: [fuel] bounds it here, and [None] means it ran out. *)
Fixpoint while_loop (fuel : nat) (content : json) (log : list request)
  : option (next_result * generator * list request) :=
  match fuel with
  | O => None
  | S fuel' =>
      match has_next content with
      | inl e => Some (Raised e, GFinished, log)
      | inr false => Some (Stopped, GFinished, log)
      | inr true =>
          match (let! url := lift (next_url content) in
                 fetch_page (link_request url)) log with
          | (inl e, log') => Some (Raised e, GFinished, log')
          | (inr (content', []), log') => while_loop fuel' content' log'
          | (inr (content', record :: pending), log') =>
              Some (Yielded record, GSuspended content' pending, log')
          end
      end
  end.

(** A [for] loop over [pending], followed by the [while] loop. *)
Definition for_loop (fuel : nat) (content : json) (pending : list json)
    (log : list request)
  : option (next_result * generator * list request) :=
  match pending with
  | record :: pending' => Some (Yielded record, GSuspended content pending', log)
  | [] => while_loop fuel content log
  end.

(** [next(g)] *)
Definition gen_next (fuel : nat) (g : generator) (log : list request)
  : option (next_result * generator * list request) :=
  match g with
  | GCreated query facets =>
      match fetch_page (search_request query facets) log with
      | (inl e, log') => Some (Raised e, GFinished, log')
      | (inr (content, items), log') => for_loop fuel content items log'
      end
  | GSuspended content pending => for_loop fuel content pending log
  | GFinished => Some (Stopped, GFinished, log)
  end.

(** [g.close()], also what happens to a generator that is dropped: the
    body has no [try], so nothing of it runs. *)
Definition gen_close (g : generator) : generator := GFinished.

(** Calling a generator function runs none of its body: it only makes
    the generator. *)
Definition perform_inspire_literature_search_body
    (query : string) (facets : option (gmap string string)) : M generator :=
  ret (GCreated query facets).

Definition perform_inspire_literature_search
    (query : string) (facets : option (gmap string string)) : M generator :=
  on_exception 10 (perform_inspire_literature_search_body query facets).

(** *** Consumers *)

(** [for record in g: ...] to the end: the records received, how the
    iteration ended ([None]: normally) and the final log.  [n] bounds the
    number of [next] calls. *)
Fixpoint drain (fuel n : nat) (g : generator) (log : list request)
  : option (list json * option exn * list request) :=
  match n with
  | O => None
  | S n' =>
      match gen_next fuel g log with
      | None => None
      | Some (Yielded record, g', log') =>
          match drain fuel n' g' log' with
          | Some (records, ending, log'') => Some (record :: records, ending, log'')
          | None => None
          end
      | Some (Stopped, _, log') => Some ([], None, log')
      | Some (Raised e, _, log') => Some ([], Some e, log')
      end
  end.

(** [list(g)]: the whole list or the exception. *)
Definition py_list (fuel n : nat) (g : generator) (log : list request)
  : option ((exn + list json) * list request) :=
  match drain fuel n g log with
  | Some (records, None, log') => Some (inr records, log')
  | Some (_, Some e, log') => Some (inl e, log')
  | None => None
  end.

(** [for record in perform_inspire_literature_search(query, facets): ...] *)
Definition iterate_search (fuel n : nat) (query : string)
    (facets : option (gmap string string)) (log : list request)
  : option (list json * option exn * list request) :=
  match perform_inspire_literature_search query facets log with
  | (inr g, log') => drain fuel n g log'
  | (inl e, log') => Some ([], Some e, log')
  end.

(** [list(perform_inspire_literature_search(query, facets))] *)
Definition list_search (fuel n : nat) (query : string)
    (facets : option (gmap string string)) (log : list request)
  : option ((exn + list json) * list request) :=
  match perform_inspire_literature_search query facets log with
  | (inr g, log') => py_list fuel n g log'
  | (inl e, log') => Some (inl e, log')
  end.

(** [itertools.islice(g, k)] consumed to its end, the generator being
    dropped afterwards: a consumer that asks for at most [k] records. *)
Fixpoint islice (fuel k : nat) (g : generator) (log : list request)
  : option (list json * generator * list request) :=
  match k with
  | O => Some ([], gen_close g, log)
  | S k' =>
      match gen_next fuel g log with
      | None => None
      | Some (Yielded record, g', log') =>
          match islice fuel k' g' log' with
          | Some (records, g'', log'') => Some (record :: records, g'', log'')
          | None => None
          end
      | Some (_, g', log') => Some ([], g', log')
      end
  end.

End Client.

Arguments gen_close : simpl never.

(** ** The reports *)

Definition newline : string := String "010"%char EmptyString.
Definition double_quote : string := String "034"%char EmptyString.

(** [sep.join(parts)] *)
Definition join (sep : string) (parts : list string) : string :=
  String.concat sep parts.

(** [{"earliest_date": f"{year}--{year}"}] *)
Definition year_facets (year : Z) : gmap string string :=
  {[ "earliest_date" := pretty year +:+ "--" +:+ pretty year ]}.

(** The two dictionaries of [print_results], as their items in the order
    of the literal (no key is repeated in either). *)
Definition annual_queries : list (string * string) :=
  [("Total HEP", "tc core");
   ("Total HEP (published)", "tc core and doi:*");
   ("ALICE", "cn alice and not tc note");
   ("ALICE (published)", "cn alice and tc p");
   ("ATLAS", "cn atlas and not cn herschel and not tc note");
   ("ATLAS (published)", "cn atlas and not cn herschel and tc p");
   ("CMS", "cn cms and not tc note");
   ("CMS (published)", "cn atlas and not cn herschel and tc p");
   ("LHCb", "cn lhcb and not tc note");
   ("LHCb (published)", "cn lhcb and not tc note and tc p")].

Definition citation_queries : list (string * string) :=
  [("Citations HEP (published)", "tc core and tc p");
   ("Citations theory (published)",
    "tc core and tc p and (inspire_categories.term:Theory-HEP or inspire_categories.term:Phenomenology-HEP or inspire_categories.term:"
    +:+ double_quote +:+ "Gravitation and Cosmology" +:+ double_quote
    +:+ " or inspire_categories.term:"
    +:+ double_quote +:+ "Math and Math Physics" +:+ double_quote
    +:+ " or inspire_categories.term:Theory-Nucl or inspire_categories.term:Lattice)");
   ("Citations experiment (published)",
    "tc core and tc p and (inspire_categories.term:Experiment-HEP or inspire_categories.term:Instrumentation or inspire_categories.term:Accelerators or inspire_categories.term:Experiment-Nucl)");
   ("Citations ALICE (published)", "cn alice and tc p");
   ("Citations ATLAS (published)", "cn atlas and not cn herschel and tc p");
   ("Citations CMS (published)", "cn cms and tc p");
   ("Citations LHCb (published)", "cn lhcb and tc p");
   ("Citations LHC (published)",
    "(cn alice or cn atlas or cn cms or cn lhcb) and not cn herschel and tc p")].

Section Reports.

Variable server : server_t.

(** [str(v)], as an f-string renders a value taken from a response.
    Python's rendering of floats and of containers is not reproduced: the
    function is a parameter of the reports. *)
Variable py_str : json → string.

(** An iterator the program loops over is kept as the list of its steps,
    each one the computation that runs up to the next [yield]; a step runs
    when the consumer asks for the next item, and a step that raises ends
    the iteration.  [annual_counts] has one step per year, whatever the
    server answers. *)
Definition annual_counts_step (query : string) (year : Z) : M (Z * json) :=
  let! hits := count_inspire_literature_search server query
                 (Some (year_facets year)) in
  ret (year, hits).

Definition annual_counts_over (years : list Z) (query : string)
  : list (M (Z * json)) :=
  map (annual_counts_step query) years.

Definition annual_counts (query : string) : list (M (Z * json)) :=
  annual_counts_over YEARS query.

(** [f"{year}|{count}"] *)
Definition row (year : Z) (count : json) : string :=
  pretty year +:+ "|" +:+ py_str count.

(** [for year, count in it: result.append(f"{year}|{count}")] *)
Fixpoint append_rows (it : list (M (Z * json))) (result : list string)
  : M (list string) :=
  match it with
  | [] => ret result
  | step :: it' =>
      let! item := step in
      append_rows it' (result ++ [row item.1 item.2])
  end.

Definition format_annual_counts (it : list (M (Z * json))) : M string :=
  let! result := append_rows it ["Year|Count"; "---|---"] in
  ret (join newline result).

Definition get_annual_counts (query : string) : M string :=
  format_annual_counts (annual_counts query).

(** The text of one [print] of the first loop:
    [f"## {title}\n\n{result}\n\n"]. *)
Definition annual_section (title query : string) : M string :=
  let! result := get_annual_counts query in
  ret ("## " +:+ title +:+ newline +:+ newline +:+ result
       +:+ newline +:+ newline).

(** The text of one [print] of the second loop:
    [f"## {title}\n\nTotal: {total}\nAverage: {average}\n\n"]. *)
Definition citation_section (title query : string) : M string :=
  let! stats := get_citations server query in
  ret ("## " +:+ title +:+ newline +:+ newline
       +:+ "Total: " +:+ py_str stats.1 +:+ newline
       +:+ "Average: " +:+ py_str stats.2 +:+ newline +:+ newline).

(** [for title, query in queries.items(): ...; print(...)]: the standard
    output is the list of the texts written, one per [print], each with
    the newline that [print] adds.  What was printed stays printed when a
    later section raises. *)
Fixpoint print_each (section : string → string → M string)
    (queries : list (string * string))
    (log : list request) (out : list string)
  : (exn + unit) * list request * list string :=
  match queries with
  | [] => (inr tt, log, out)
  | (title, query) :: queries' =>
      match section title query log with
      | (inl e, log') => (inl e, log', out)
      | (inr text, log') =>
          print_each section queries' log' (out ++ [text +:+ newline])
      end
  end.

Definition print_results (log : list request) (out : list string)
  : (exn + unit) * list request * list string :=
  match print_each annual_section annual_queries log out with
  | (inr _, log', out') => print_each citation_section citation_queries log' out'
  | failed => failed
  end.

End Reports.

(** ** Scripted servers

    The server of a test: the i-th request ever issued is answered by the
    i-th entry of the script, whatever it asks for; once the script is
    used up every request gets [fallback]. *)

Definition scripted (script : list (exn + response)) (fallback : exn + response)
  : server_t :=
  λ log _, default fallback (script !! length log).

Definition ok (content : json) : exn + response :=
  inr (Build_response 200 (Some content)).

Definition status (code : Z) : exn + response :=
  inr (Build_response code None).

(** A page of the literature endpoint, with or without a next link. *)
Definition page (records : list json) (next : option json) : json :=
  JObj (("hits", JObj [("hits", JArr records);
                       ("total", JInt (Z.of_nat (length records)))])
        :: match next with
           | Some url => [("links", JObj [("self", JStr "self"); ("next", url)])]
           | None => [("links", JObj [("self", JStr "self")])]
           end).

(** * Vocabulary of the statements *)

(** The value a request carries for the parameter [k]. *)
Definition param (rq : request) (k : string) : option pval :=
  req_params rq ≫= (.!! k).

(** The parameters of [rq] are the entries of [builtin] with the items of
    [facets] written over them: a key of [facets] has the value [facets]
    gives it, any other key has what [builtin] has for it, if anything. *)
Definition merged_over (builtin : gmap string pval)
    (facets : gmap string string) (rq : request) : Prop :=
  ∀ k, param rq k = match facets !! k with
                    | Some v => Some (PStr v)
                    | None => builtin !! k
                    end.

(** [v[k1][k2]...] *)
Fixpoint getpath (v : json) (ks : list string) : exn + json :=
  match ks with
  | [] => inr v
  | k :: ks' => let? v' := getitem v k in getpath v' ks'
  end.

(** The items a suspended generator has still to hand out before it needs
    another page. *)
Definition pending_of (g : generator) : list json :=
  match g with
  | GSuspended _ pending => pending
  | _ => []
  end.

(** The body has [hits.hits], an array of [records]. *)
Definition page_records (content : json) (records : list json) : Prop :=
  ∃ hits, getitem content "hits" = inr hits
          ∧ getitem hits "hits" = inr (JArr records).

(** The body is a mapping whose [links], if there, is a mapping; [next] is
    what it has under [links.next]. *)
Definition page_next (content : json) (next : option json) : Prop :=
  ∃ kvs, content = JObj kvs
         ∧ match assoc "links" kvs with
           | None => next = None
           | Some (JObj links) => assoc "next" links = next
           | Some _ => False
           end.

(** What a consumer that iterates to the end makes of one [next]. *)
Definition finish (res : next_result) (log' : list request)
    (rest : option (list json * option exn * list request))
  : option (list json * option exn * list request) :=
  match res with
  | Yielded record =>
      match rest with
      | Some (records, ending, log'') => Some (record :: records, ending, log'')
      | None => None
      end
  | Stopped => Some ([], None, log')
  | Raised e => Some ([], Some e, log')
  end.

(** What a consumer of [islice] makes of one [next]. *)
Definition slice_finish (res : next_result) (g' : generator)
    (log' : list request) (rest : option (list json * generator * list request))
  : option (list json * generator * list request) :=
  match res with
  | Yielded record =>
      match rest with
      | Some (records, g'', log'') => Some (record :: records, g'', log'')
      | None => None
      end
  | _ => Some ([], g', log')
  end.

Section Vocabulary.

Variable server : server_t.

(** The request gets a response that passes [raise_for_status] and whose
    body parses to [content]. *)
Definition responds (log : list request) (rq : request) (content : json) : Prop :=
  ∃ resp, server log rq = inr resp
          ∧ is_error_status (status_code resp) = false
          ∧ json_body resp = Some content.

(** The request fails with [e]: [session.get] raises it, or the response
    has an error status. *)
Definition fails (log : list request) (rq : request) (e : exn) : Prop :=
  server log rq = inl e
  ∨ ∃ resp, server log rq = inr resp
            ∧ is_error_status (status_code resp) = true
            ∧ e = HTTPError (status_code resp).

(** The request fails with an HTTP error status. *)
Definition http_error (log : list request) (rq : request) : Prop :=
  ∃ resp, server log rq = inr resp
          ∧ is_error_status (status_code resp) = true.

(** The shape of the bodies of the count and of the aggregation: one
    request, and a lookup in the content received. *)
Definition one_request (rq : request) (post : json → exn + json) : M json :=
  let! content := get_content server rq in lift (post content).

(** [follows log content pages rqs ending]: from the page [content],
    received when the log was [log], the next links lead through the pages
    whose records are [pages], by the requests [rqs]; the walk ends at a
    page without next link ([ending = None]) or at a request that fails
    ([ending = Some e]). *)
Inductive follows
  : list request → json → list (list json) → list request → option exn → Prop :=
| follows_end log content :
    page_next content None →
    follows log content [] [] None
| follows_failure log content url e :
    page_next content (Some url) →
    fails log (link_request url) e →
    follows log content [] [link_request url] (Some e)
| follows_page log content url content' records pages rqs ending :
    page_next content (Some url) →
    responds log (link_request url) content' →
    page_records content' records →
    follows (log ++ [link_request url]) content' pages rqs ending →
    follows log content (records :: pages) (link_request url :: rqs) ending.

(** The same from a first request [rq]. *)
Inductive paginated
  : list request → request → list (list json) → list request → option exn → Prop :=
| paginated_failure log rq e :
    fails log rq e →
    paginated log rq [] [rq] (Some e)
| paginated_page log rq content records pages rqs ending :
    responds log rq content →
    page_records content records →
    follows (log ++ [rq]) content pages rqs ending →
    paginated log rq (records :: pages) (rq :: rqs) ending.

(** From the [while] test on [content], an iteration with enough fuel
    receives [records] and ends with [ending], the log being [log_end];
    [rounds] is the number of pages ahead. *)
Definition runs_to (fuel : nat) (content : json) (log : list request)
    (records : list json) (ending : option exn) (log_end : list request)
    (rounds : nat) : Prop :=
  ∀ f n, (rounds < f)%nat → (length records ≤ n)%nat →
    ∃ res g' log',
      while_loop server f content log = Some (res, g', log')
      ∧ finish res log' (drain server fuel n g' log')
        = Some (records, ending, log_end).

(** From the [while] test on [content], a consumer that still wants
    [S k] records, all of them within the next [N] pages, gets them by
    at most [N] requests. *)
Definition slices_to (fuel : nat) (content : json) (log : list request)
    (pages : list (list json)) (rqs : list request) : Prop :=
  ∀ f k N, (length pages < f)%nat →
    (S k ≤ length (concat (take N pages)))%nat →
    ∃ res g' log',
      while_loop server f content log = Some (res, g', log')
      ∧ ∃ j g'', (j ≤ N)%nat
          ∧ slice_finish res g' log' (islice server fuel k g' log')
            = Some (take (S k) (concat pages), g'', log ++ take j rqs).

End Vocabulary.

(** ** Bodies and servers of the examples *)

Definition total_42 : json := JObj [("hits", JObj [("total", JInt 42)])].

Definition summary_0 : json :=
  JObj [("citations", JObj [("buckets", JObj [("all", JObj [
    ("citations_count", JObj [("value", JInt 1234)]);
    ("average_citations", JObj [("value", JFloat "12.5")])])])])].

Definition aggregations_0 : json := JObj [("citation_summary", summary_0)].

Definition facets_body_0 : json :=
  JObj [("took", JInt 3); ("aggregations", aggregations_0)].

Definition citation_rq_0 : request :=
  aggregation_request "cn lhcb and tc p"
    (Some {[ "earliest_date" := "2008--2020"; "facet_name" := "citation-summary" ]}).

Definition record (n : Z) : json :=
  JObj [("id", JInt n); ("metadata", JObj [("control_number", JInt n)])].

Definition page_2_url : json :=
  JStr "https://inspirehep.net/api/literature?q=cn+cms&size=10&page=2".
Definition page_3_url : json :=
  JStr "https://inspirehep.net/api/literature?q=cn+cms&size=10&page=3".

Definition two_pages : server_t :=
  scripted [ok (page [record 1; record 2] (Some page_2_url));
            ok (page [record 3] None)]
           (status 404).

Definition second_page_fails : server_t :=
  scripted [ok (page [record 1; record 2] (Some page_2_url))] (status 500).

(** Every request gets an error response. *)
Definition always_fails : server_t := scripted [] (status 500).

(** One error response, and a good page after it. *)
Definition fails_once : server_t :=
  scripted [status 500; ok (page [record 1] None)] (status 404).

(** Two good pages, one error response for the third, which a second
    attempt would get. *)
Definition third_page_fails_once : server_t :=
  scripted [ok (page [record 1] (Some page_2_url));
            ok (page [record 2] (Some page_3_url));
            status 503;
            ok (page [record 3] None)]
           (status 404).

(** ** Vocabulary of the reports *)

(** The count request of [annual_counts] for one year, and the request of
    [get_citations]. *)
Definition year_request (query : string) (year : Z) : request :=
  count_request query (Some (year_facets year)).

Definition citation_request (query : string) : request :=
  aggregation_request query (Some (citation_facets 2008 2020)).

(** A value that is neither a mapping, a list nor a string. *)
Definition is_scalar (v : json) : Prop :=
  match v with
  | JNull | JBool _ | JInt _ | JFloat _ => True
  | _ => False
  end.

(** The requests of a run in which the i-th year is asked for [ns !! i]
    times. *)
Definition repeated_requests (query : string) (ns : list nat) (years : list Z)
  : list request :=
  concat (zip_with (λ n year, replicate n (year_request query year)) ns years).

(** The number of line breaks in a text. *)
Fixpoint count_newlines (s : string) : nat :=
  match s with
  | EmptyString => 0
  | String c s' =>
      (if Ascii.eqb c "010"%char then 1 else 0) + count_newlines s'
  end.

(** The text [print] writes for a section with the body [body]. *)
Definition section_text (title body : string) : string :=
  "## " +:+ title +:+ newline +:+ newline +:+ body
  +:+ newline +:+ newline +:+ newline.

Section ReportsVocabulary.

Variable server : server_t.

(** A failure of a one-request call that is not an HTTP error:
    [session.get] raises something else, the body of a good response is not
    JSON, or the lookup [post] fails in the content received. *)
Definition breaks (log : list request) (rq : request)
    (post : json → exn + json) (e : exn) : Prop :=
  (server log rq = inl e ∧ is_HTTPError e = false)
  ∨ (∃ resp, server log rq = inr resp
             ∧ is_error_status (status_code resp) = false
             ∧ json_body resp = None
             ∧ e = JSONDecodeError)
  ∨ (∃ content, responds server log rq content ∧ post content = inl e).

(** From the log [log] on, the count request of each of [years], in their
    order, gets at once a good response whose [hits.total] is [totals year]. *)
Fixpoint yearly (query : string) (totals : Z → json) (years : list Z)
    (log : list request) : Prop :=
  match years with
  | [] => True
  | year :: years' =>
      (∃ content, responds server log (year_request query year) content
                  ∧ getpath content ["hits"; "total"] = inr (totals year))
      ∧ yearly query totals years' (log ++ [year_request query year])
  end.

(** The server answers every request to the literature endpoint with
    [count_body] and every request to the facets endpoint with
    [facets_body], whatever came before. *)
Definition answers_with (count_body facets_body : json) : Prop :=
  (∀ log rq, req_url rq = JStr INSPIRE_LITERATURE_API_ENDPOINT →
             responds server log rq count_body)
  ∧ (∀ log rq, req_url rq = JStr INSPIRE_FACET_API_ENDPOINT →
               responds server log rq facets_body).

End ReportsVocabulary.

(** ** Runs of the report, told by what the server answered *)

Section RunsVocabulary.

Variable server : server_t.
Variable py_str : json → string.

(** A one-request call that ended well from the log [log]: after fewer
    than ten attempts that were retried, the request [rq] got a good
    response with the content [content], and the log was left at [log']. *)
Definition ends_well (rq : request) (log : list request) (content : json)
    (log' : list request) : Prop :=
  ∃ n, (n < 10)%nat
       ∧ responds server (log ++ replicate n rq) rq content
       ∧ log' = log ++ replicate (S n) rq.

(** The counts of [years], one after the other from [log] to [log'], each
    ended well, the count of the i-th year being [values !! i]. *)
Fixpoint counted (query : string) (years : list Z) (values : list json)
    (log log' : list request) : Prop :=
  match years, values with
  | [], [] => log' = log
  | year :: years', value :: values' =>
      ∃ content log1,
        ends_well (year_request query year) log content log1
        ∧ getpath content ["hits"; "total"] = inr value
        ∧ counted query years' values' log1 log'
  | _, _ => False
  end.

(** [text] is the whole section of an annual table: under the title, the
    header and one line for every year of [YEARS], each with the total
    that a good response to the count of that year gave, all those counts
    having been made from [log] to [log']. *)
Definition annual_section_printed (title query : string)
    (log : list request) (text : string) (log' : list request) : Prop :=
  ∃ values,
    counted query YEARS values log log'
    ∧ text = section_text title
               (join newline
                  ("Year|Count" :: "---|---"
                   :: zip_with (λ year value,
                                  pretty year +:+ "|" +:+ py_str value)
                        YEARS values)).

(** [text] is the whole section of a citation summary: the total and the
    average that a good response to the aggregation request gave. *)
Definition citation_section_printed (title query : string)
    (log : list request) (text : string) (log' : list request) : Prop :=
  ∃ content stats total average,
    ends_well (citation_request query) log content log'
    ∧ getpath content
        ["aggregations"; "citation_summary"; "citations"; "buckets"; "all"]
      = inr stats
    ∧ getpath stats ["citations_count"; "value"] = inr total
    ∧ getpath stats ["average_citations"; "value"] = inr average
    ∧ text = section_text title
               ("Total: " +:+ py_str total +:+ newline
                +:+ "Average: " +:+ py_str average).

End RunsVocabulary.

(** [texts] are the sections of the first entries of [queries], in their
    order, each one [printed] from the log the one before left, from [log]
    to [log']. *)
Fixpoint printed_in_order
    (printed : string → string → list request → string → list request → Prop)
    (queries : list (string * string)) (texts : list string)
    (log log' : list request) : Prop :=
  match texts, queries with
  | [], _ => log' = log
  | text :: texts', (title, query) :: queries' =>
      ∃ log1, printed title query log text log1
              ∧ printed_in_order printed queries' texts' log1 log'
  | _ :: _, [] => False
  end.

(** ** Servers and renderings of the report examples *)

(** A rendering for the examples: integers in decimal, strings and float
    literals as they are. *)
Definition str_plain (v : json) : string :=
  match v with
  | JInt n => pretty n
  | JStr s => s
  | JFloat lit => lit
  | JNull => "None"
  | JBool true => "True"
  | JBool false => "False"
  | JArr _ => "[...]"
  | JObj _ => "{...}"
  end.

(** Every request gets the count body [total_42]. *)
Definition always_42 : server_t := scripted [] (ok total_42).

(** Two good counts, and error responses ever after. *)
Definition fails_from_third : server_t :=
  scripted [ok total_42; ok total_42] (status 500).

(** The literature endpoint answers with [total_42], the facets endpoint
    with [facets_body_0]. *)
Definition by_endpoint : server_t :=
  λ _ rq,
    match req_url rq with
    | JStr url =>
        if String.eqb url INSPIRE_FACET_API_ENDPOINT then ok facets_body_0
        else ok total_42
    | _ => status 404
    end.

(** A page whose [links] is null. *)
Definition page_links_null : json :=
  JObj [("hits", JObj [("hits", JArr [record 1; record 2])]); ("links", JNull)].

(** A page that points at itself. *)
Definition page_cycle : json := page [record 1] (Some page_2_url).

(** * Properties *)

(** ** What a server does at a point of the log *)

Section Served.

Variable server : server_t.

Lemma get_content_responds log rq content :
  responds server log rq content →
  get_content server rq log = (inr content, log ++ [rq]).
Proof.
  intros (resp & Hs & Hst & Hb).
  unfold get_content, bind, session_get, raise_for_status, response_json.
  rewrite Hs, Hst, Hb. reflexivity.
Qed.

Lemma get_content_fails log rq e :
  fails server log rq e →
  get_content server rq log = (inl e, log ++ [rq]).
Proof.
  unfold get_content, bind, session_get, raise_for_status.
  intros [Hs | (resp & Hs & Hst & ->)]; rewrite Hs; [reflexivity |].
  rewrite Hst. reflexivity.
Qed.

(** Whatever the server does, [get_content] issues exactly its request. *)
Lemma get_content_log log rq :
  (get_content server rq log).2 = log ++ [rq].
Proof.
  unfold get_content, bind, session_get, raise_for_status, response_json.
  destruct (server log rq) as [e | resp]; [reflexivity |].
  destruct (is_error_status _); [reflexivity |].
  destruct (json_body resp); reflexivity.
Qed.

End Served.

(** ** The retry loop *)

Section Retry.

Context {A : Type}.
Variable target : M A.

Lemma retry_returns more log a log' :
  target log = (inr a, log') → retry more target log = (inr a, log').
Proof. intros H. destruct more; simpl; rewrite H; reflexivity. Qed.

Lemma on_exception_returns max_tries log a log' :
  target log = (inr a, log') →
  on_exception max_tries target log = (inr a, log').
Proof. apply retry_returns. Qed.

Lemma retry_propagates more log e log' :
  target log = (inl e, log') → is_HTTPError e = false →
  retry more target log = (inl e, log').
Proof. intros H He. destruct more; simpl; rewrite H, He; reflexivity. Qed.

(** A target that issues the single request [rq] on every try. *)
Variable rq : request.
Hypothesis target_log : ∀ log, (target log).2 = log ++ [rq].

Lemma retry_after_failures (failures : nat) : ∀ more log a,
  (∀ i, (i < failures)%nat →
        ∃ code, (target (log ++ replicate i rq)).1 = inl (HTTPError code)) →
  (target (log ++ replicate failures rq)).1 = inr a →
  (failures ≤ more)%nat →
  retry more target log = (inr a, log ++ replicate (S failures) rq).
Proof.
  induction failures as [| k IH]; intros more log a Hfail Hok Hle.
  - simpl in Hok. rewrite app_nil_r in Hok.
    apply retry_returns. specialize (target_log log).
    destruct (target log) as [r l]; simpl in *; subst. reflexivity.
  - destruct more as [| more]; [lia |].
    destruct (Hfail O ltac:(lia)) as [code Hc]. simpl in Hc.
    rewrite app_nil_r in Hc. pose proof (target_log log) as Hl.
    simpl. destruct (target log) as [r l]; simpl in *; subst. simpl.
    rewrite (IH more (log ++ [rq]) a).
    + rewrite <- app_assoc. reflexivity.
    + intros i Hi. destruct (Hfail (S i) ltac:(lia)) as [c Hc'].
      exists c. rewrite <- app_assoc. exact Hc'.
    + rewrite <- app_assoc. exact Hok.
    + lia.
Qed.

Lemma retry_gives_up : ∀ more log,
  (∀ i, (i ≤ more)%nat →
        ∃ code, (target (log ++ replicate i rq)).1 = inl (HTTPError code)) →
  ∃ code, retry more target log
          = (inl (HTTPError code), log ++ replicate (S more) rq).
Proof.
  induction more as [| more IH]; intros log Hfail.
  - destruct (Hfail O ltac:(lia)) as [code Hc]. simpl in Hc.
    rewrite app_nil_r in Hc. pose proof (target_log log) as Hl.
    exists code. simpl.
    destruct (target log) as [r l]; simpl in *; subst. reflexivity.
  - destruct (Hfail O ltac:(lia)) as [code Hc]. simpl in Hc.
    rewrite app_nil_r in Hc. pose proof (target_log log) as Hl.
    destruct (IH (log ++ [rq])) as [c Hr].
    + intros i Hi. destruct (Hfail (S i) ltac:(lia)) as [c Hc'].
      exists c. rewrite <- app_assoc. exact Hc'.
    + exists c. simpl.
      destruct (target log) as [r l]; simpl in *; subst. simpl.
      rewrite Hr, <- app_assoc. reflexivity.
Qed.

End Retry.

(** ** Calls made of one request: the count and the aggregation *)

Lemma facets_or_empty_Some (facets : gmap string string) :
  facets_or_empty (Some facets) = facets.
Proof. unfold facets_or_empty. case_decide; congruence. Qed.

Lemma search_params_lookup query (facets : gmap string string) k :
  search_params query facets !! k =
    match facets !! k with
    | Some v => Some (PStr v)
    | None => if decide (k = "q") then Some (PStr query) else None
    end.
Proof.
  unfold search_params. rewrite lookup_union, lookup_fmap.
  destruct (facets !! k) as [v |] eqn:Hk; simpl.
  - destruct (({[ "q" := PStr query ]} : gmap string pval) !! k); reflexivity.
  - rewrite (left_id None _). case_decide; subst.
    + apply lookup_singleton_eq.
    + apply lookup_singleton_ne. congruence.
Qed.

Lemma count_params_lookup query (facets : gmap string string) k :
  count_params query facets !! k =
    match facets !! k with
    | Some v => Some (PStr v)
    | None =>
        if decide (k = "size") then Some (PInt 1)
        else if decide (k = "q") then Some (PStr query) else None
    end.
Proof.
  unfold count_params. rewrite lookup_union, lookup_fmap.
  destruct (facets !! k) as [v |] eqn:Hk; simpl.
  - destruct ((<[ "size" := PInt 1 ]> {[ "q" := PStr query ]} : gmap string pval) !! k);
      reflexivity.
  - rewrite (left_id None _). case_decide; subst.
    + apply lookup_insert_eq.
    + rewrite lookup_insert_ne by congruence. case_decide; subst.
      * apply lookup_singleton_eq.
      * apply lookup_singleton_ne. congruence.
Qed.

Lemma param_count_request query facets k :
  param (count_request query facets) k
  = count_params query (facets_or_empty facets) !! k.
Proof. reflexivity. Qed.

Lemma param_aggregation_request query facets k :
  param (aggregation_request query facets) k
  = search_params query (facets_or_empty facets) !! k.
Proof. reflexivity. Qed.

Lemma param_search_request query facets k :
  param (search_request query facets) k
  = search_params query (facets_or_empty facets) !! k.
Proof. reflexivity. Qed.

Section OneRequest.

Variable server : server_t.

Lemma one_request_log rq post log :
  (one_request server rq post log).2 = log ++ [rq].
Proof.
  unfold one_request, bind. pose proof (get_content_log server log rq) as H.
  destruct (get_content server rq log) as [[e | c] l]; simpl in *; subst;
    [reflexivity |].
  destruct (post c); reflexivity.
Qed.

Lemma one_request_responds rq post log content :
  responds server log rq content →
  one_request server rq post log = (lift (post content) (log ++ [rq])).
Proof.
  intros H. unfold one_request, bind.
  rewrite (get_content_responds server log rq content H). reflexivity.
Qed.

Lemma one_request_fails rq post log e :
  fails server log rq e →
  one_request server rq post log = (inl e, log ++ [rq]).
Proof.
  intros H. unfold one_request, bind.
  rewrite (get_content_fails server log rq e H). reflexivity.
Qed.

(** A retried call of this shape issues its request between one and
    [max_tries] times, and nothing else. *)
Lemma retry_one_request_log rq post : ∀ more log,
  ∃ n, (1 ≤ n ≤ S more)%nat
       ∧ (retry more (one_request server rq post) log).2 = log ++ replicate n rq.
Proof.
  induction more as [| more IH]; intros log;
    pose proof (one_request_log rq post log) as Hl; simpl;
    destruct (one_request server rq post log) as [[e | a] l]; simpl in *; subst;
    try (exists 1%nat; split; [lia | reflexivity]).
  - destruct (is_HTTPError e); exists 1%nat; (split; [lia | reflexivity]).
  - destruct (is_HTTPError e); [| exists 1%nat; split; [lia | reflexivity]].
    destruct (IH (log ++ [rq])) as (n & Hn & Heq).
    exists (S n). split; [lia |]. rewrite Heq, <- app_assoc. reflexivity.
Qed.

Lemma count_body_one_request query facets :
  count_inspire_literature_search_body server query facets
  = one_request server (count_request query facets)
      (λ content, let? hits := getitem content "hits" in getitem hits "total").
Proof. reflexivity. Qed.

Lemma aggregation_body_one_request query facets :
  perform_inspire_literature_aggregation_body server query facets
  = one_request server (aggregation_request query facets)
      (λ content, getitem content "aggregations").
Proof. reflexivity. Qed.

Lemma one_request_http_error rq post log :
  http_error server log rq →
  ∃ code, (one_request server rq post log).1 = inl (HTTPError code).
Proof.
  intros (resp & Hs & Hst). exists (status_code resp).
  rewrite (one_request_fails rq post log (HTTPError (status_code resp)));
    [reflexivity |].
  right. exists resp. auto.
Qed.

(** The retry policy on the two calls that are plain functions: [failures]
    error responses and then a good one make [failures + 1] requests and
    return the good result; ten error responses make ten requests and the
    last error is raised. *)
Lemma count_retried query facets log failures content hits total :
  let rq := count_request query facets in
  (∀ i, (i < failures)%nat → http_error server (log ++ replicate i rq) rq) →
  responds server (log ++ replicate failures rq) rq content →
  getitem content "hits" = inr hits → getitem hits "total" = inr total →
  (failures < 10)%nat →
  count_inspire_literature_search server query facets log
  = (inr total, log ++ replicate (S failures) rq).
Proof.
  intros rq Hfail Hok Hh Ht Hlt.
  unfold count_inspire_literature_search, on_exception.
  rewrite count_body_one_request.
  apply retry_after_failures; [apply one_request_log | | | simpl; lia].
  - intros i Hi. apply one_request_http_error, Hfail, Hi.
  - rewrite (one_request_responds _ _ _ content Hok), Hh. simpl.
    rewrite Ht. reflexivity.
Qed.

Lemma count_gives_up query facets log :
  let rq := count_request query facets in
  (∀ i, (i < 10)%nat → http_error server (log ++ replicate i rq) rq) →
  ∃ code, count_inspire_literature_search server query facets log
          = (inl (HTTPError code), log ++ replicate 10 rq).
Proof.
  intros rq Hfail.
  unfold count_inspire_literature_search, on_exception.
  rewrite count_body_one_request.
  apply retry_gives_up; [apply one_request_log |].
  intros i Hi. apply one_request_http_error, Hfail. simpl in Hi. lia.
Qed.

Lemma aggregation_retried query facets log failures content aggregations :
  let rq := aggregation_request query facets in
  (∀ i, (i < failures)%nat → http_error server (log ++ replicate i rq) rq) →
  responds server (log ++ replicate failures rq) rq content →
  getitem content "aggregations" = inr aggregations →
  (failures < 10)%nat →
  perform_inspire_literature_aggregation server query facets log
  = (inr aggregations, log ++ replicate (S failures) rq).
Proof.
  intros rq Hfail Hok Ha Hlt.
  unfold perform_inspire_literature_aggregation, on_exception.
  rewrite aggregation_body_one_request.
  apply retry_after_failures; [apply one_request_log | | | simpl; lia].
  - intros i Hi. apply one_request_http_error, Hfail, Hi.
  - rewrite (one_request_responds _ _ _ content Hok), Ha. reflexivity.
Qed.

Lemma aggregation_gives_up query facets log :
  let rq := aggregation_request query facets in
  (∀ i, (i < 10)%nat → http_error server (log ++ replicate i rq) rq) →
  ∃ code, perform_inspire_literature_aggregation server query facets log
          = (inl (HTTPError code), log ++ replicate 10 rq).
Proof.
  intros rq Hfail.
  unfold perform_inspire_literature_aggregation, on_exception.
  rewrite aggregation_body_one_request.
  apply retry_gives_up; [apply one_request_log |].
  intros i Hi. apply one_request_http_error, Hfail. simpl in Hi. lia.
Qed.

End OneRequest.

(** ** The count *)

(** C4: when the server answers the count request with a good response,
    [count_inspire_literature_search] returns [hits.total] of the body
    having issued that one request and no other (no next link is followed):
    a GET of the literature endpoint whose parameters are [q] and [size=1]
    overlaid with the facets, so that [size] is [1] for facets that do not
    set it themselves. *)
Theorem count_returns_total server query facets log content hits total :
  let rq := count_request query facets in
  responds server log rq content →
  getitem content "hits" = inr hits →
  getitem hits "total" = inr total →
  count_inspire_literature_search server query facets log
    = (inr total, log ++ [rq])
  ∧ req_url rq = JStr INSPIRE_LITERATURE_API_ENDPOINT
  ∧ (∀ k, param rq k =
          match facets_or_empty facets !! k with
          | Some v => Some (PStr v)
          | None =>
              if decide (k = "size") then Some (PInt 1)
              else if decide (k = "q") then Some (PStr query) else None
          end)
  ∧ (facets_or_empty facets !! "size" = None →
     param rq "size" = Some (PInt 1)).
Proof.
  intros rq Hok Hh Ht. split; [| split; [reflexivity | split]].
  - apply (count_retried server query facets log 0 content hits total);
      simpl; [intros i Hi; lia | rewrite app_nil_r; exact Hok | assumption ..| lia].
  - intros k. unfold rq. rewrite param_count_request. apply count_params_lookup.
  - intros Hnone. unfold rq.
    rewrite param_count_request, count_params_lookup, Hnone. reflexivity.
Qed.

Lemma count_returns_total_witness :
  count_inspire_literature_search (scripted [ok total_42] (status 404))
      "tc core" None []
    = (inr (JInt 42), [] ++ [count_request "tc core" None])
  ∧ req_url (count_request "tc core" None)
    = JStr INSPIRE_LITERATURE_API_ENDPOINT
  ∧ (∀ k, param (count_request "tc core" None) k =
          match facets_or_empty None !! k with
          | Some v => Some (PStr v)
          | None =>
              if decide (k = "size") then Some (PInt 1)
              else if decide (k = "q") then Some (PStr "tc core") else None
          end)
  ∧ (facets_or_empty None !! "size" = None →
     param (count_request "tc core" None) "size" = Some (PInt 1)).
Proof.
  apply (count_returns_total (scripted [ok total_42] (status 404))
           "tc core" None [] total_42 (JObj [("total", JInt 42)]) (JInt 42)).
  - exists (Build_response 200 (Some total_42)). repeat split; reflexivity.
  - reflexivity.
  - reflexivity.
Defined.

(** ** The aggregation *)

(** C5: when the server answers the aggregation request with a good
    response, [perform_inspire_literature_aggregation] returns the value
    under ["aggregations"] of the body as it is, having issued that one
    request, a GET of the facets endpoint. *)
Theorem aggregation_returns_aggregations server query facets log content aggregations :
  let rq := aggregation_request query facets in
  responds server log rq content →
  getitem content "aggregations" = inr aggregations →
  perform_inspire_literature_aggregation server query facets log
    = (inr aggregations, log ++ [rq])
  ∧ req_url rq = JStr INSPIRE_FACET_API_ENDPOINT.
Proof.
  intros rq Hok Ha. split; [| reflexivity].
  apply (aggregation_retried server query facets log 0 content aggregations);
    simpl; [intros i Hi; lia | rewrite app_nil_r; exact Hok | assumption | lia].
Qed.

Lemma aggregation_returns_aggregations_witness :
  perform_inspire_literature_aggregation
      (scripted [ok facets_body_0] (status 404)) "cn cms and tc p" None []
    = (inr aggregations_0, [] ++ [aggregation_request "cn cms and tc p" None])
  ∧ req_url (aggregation_request "cn cms and tc p" None)
    = JStr INSPIRE_FACET_API_ENDPOINT.
Proof.
  apply (aggregation_returns_aggregations
           (scripted [ok facets_body_0] (status 404))
           "cn cms and tc p" None [] facets_body_0 aggregations_0).
  - exists (Build_response 200 (Some facets_body_0)). repeat split; reflexivity.
  - reflexivity.
Defined.

(** C6, as stated, fails: for the body
    [{"aggregations": {"citation_summary": summary_0}}] the call does not
    return [summary_0]; it returns the mapping that has the key. *)
Lemma aggregation_not_the_summary :
  let body := JObj [("aggregations", JObj [("citation_summary", summary_0)])] in
  (perform_inspire_literature_aggregation
     (scripted [ok body] (status 404)) "cn cms and tc p" None []).1
  ≠ inr summary_0.
Proof. vm_compute. intros H. discriminate H. Qed.

(** C6, amended: for a body [{"aggregations": {"citation_summary": s}}] the
    call returns the whole mapping [{"citation_summary": s}], in which [s]
    is the value under ["citation_summary"]. *)
Theorem aggregation_returns_mapping_with_summary server query facets log summary :
  let rq := aggregation_request query facets in
  responds server log rq
    (JObj [("aggregations", JObj [("citation_summary", summary)])]) →
  perform_inspire_literature_aggregation server query facets log
    = (inr (JObj [("citation_summary", summary)]), log ++ [rq])
  ∧ getitem (JObj [("citation_summary", summary)]) "citation_summary"
    = inr summary.
Proof.
  intros rq Hok. split; [| reflexivity].
  apply (aggregation_retried server query facets log 0
           (JObj [("aggregations", JObj [("citation_summary", summary)])]));
    simpl; [intros i Hi; lia | rewrite app_nil_r; exact Hok | reflexivity | lia].
Qed.

Lemma aggregation_returns_mapping_with_summary_witness :
  perform_inspire_literature_aggregation
      (scripted [ok (JObj [("aggregations", JObj [("citation_summary", summary_0)])])]
                (status 404))
      "cn cms and tc p" None []
    = (inr (JObj [("citation_summary", summary_0)]),
       [] ++ [aggregation_request "cn cms and tc p" None])
  ∧ getitem (JObj [("citation_summary", summary_0)]) "citation_summary"
    = inr summary_0.
Proof.
  apply (aggregation_returns_mapping_with_summary
           (scripted [ok (JObj [("aggregations", JObj [("citation_summary", summary_0)])])]
                     (status 404))
           "cn cms and tc p" None [] summary_0).
  exists (Build_response 200
            (Some (JObj [("aggregations", JObj [("citation_summary", summary_0)])]))).
  repeat split; reflexivity.
Defined.

(** ** The citation summary *)

Lemma first_and_last_YEARS : first_and_last YEARS = inr (2008, 2020).
Proof. reflexivity. Qed.

Lemma citation_facets_YEARS :
  citation_facets 2008 2020
  = {[ "earliest_date" := "2008--2020"; "facet_name" := "citation-summary" ]}.
Proof. vm_compute. reflexivity. Qed.

(** C9: [get_citations] makes one aggregation call, with the facets
    [earliest_date = "2008--2020"] (the first and the last year of [YEARS],
    none of the years between) and [facet_name = "citation-summary"]: its
    request is the only one issued, whatever the server does; when the
    server answers it with a good response, the result is the pair of
    [citations_count.value] and [average_citations.value] of the bucket
    [all] under [citation_summary.citations.buckets]. *)
Theorem get_citations_first_and_last_year server query log content stats count
    total avg average :
  let facets : gmap string string :=
    {[ "earliest_date" := "2008--2020"; "facet_name" := "citation-summary" ]} in
  let rq := aggregation_request query (Some facets) in
  responds server log rq content →
  getpath content
    ["aggregations"; "citation_summary"; "citations"; "buckets"; "all"]
    = inr stats →
  getitem stats "citations_count" = inr count →
  getitem count "value" = inr total →
  getitem stats "average_citations" = inr avg →
  getitem avg "value" = inr average →
  head YEARS = Some 2008 ∧ last YEARS = Some 2020
  ∧ (∀ log', ∃ n, (1 ≤ n ≤ 10)%nat
       ∧ (get_citations server query log').2 = log' ++ replicate n rq)
  ∧ get_citations server query log = (inr (total, average), log ++ [rq])
  ∧ param rq "earliest_date" = Some (PStr "2008--2020")
  ∧ param rq "facet_name" = Some (PStr "citation-summary").
Proof.
  intros facets rq Hok Hpath Hc Ht Ha Hv.
  assert (Heq : ∀ log',
    get_citations server query log'
    = (let! result := perform_inspire_literature_aggregation server query
                        (Some facets) in
       lift (let? summary := getitem result "citation_summary" in
             let? citations := getitem summary "citations" in
             let? buckets := getitem citations "buckets" in
             let? citation_stats := getitem buckets "all" in
             let? count := getitem citation_stats "citations_count" in
             let? total := getitem count "value" in
             let? avg := getitem citation_stats "average_citations" in
             let? average := getitem avg "value" in
             inr (total, average))) log').
  { intros log'. unfold get_citations. rewrite first_and_last_YEARS. simpl lift.
    unfold bind at 1, ret. simpl fst; simpl snd.
    rewrite citation_facets_YEARS. reflexivity. }
  split; [reflexivity | split; [reflexivity | split; [| split]]].
  - intros log'. rewrite Heq. unfold bind.
    unfold perform_inspire_literature_aggregation, on_exception.
    rewrite aggregation_body_one_request.
    destruct (retry_one_request_log server rq
                (λ content, getitem content "aggregations") (Nat.pred 10) log')
      as (n & Hn & Hlog).
    exists n. split; [simpl in Hn; lia |]. fold rq.
    destruct (retry _ _ log') as [[e | result] l]; simpl in *; subst;
      [reflexivity |].
    match goal with |- (lift ?r _).2 = _ => destruct r; reflexivity end.
  - rewrite Heq. unfold bind. simpl in Hpath.
    destruct (getitem content "aggregations") as [e | aggs] eqn:Haggs;
      [discriminate |]. simpl in Hpath.
    rewrite (aggregation_retried server query (Some facets) log 0 content aggs);
      simpl; [| intros i Hi; lia | rewrite app_nil_r; exact Hok | assumption | lia].
    destruct (getitem aggs "citation_summary") as [| v1]; [discriminate |].
    simpl in *.
    destruct (getitem v1 "citations") as [| v2]; [discriminate |]. simpl in *.
    destruct (getitem v2 "buckets") as [| v3]; [discriminate |]. simpl in *.
    destruct (getitem v3 "all") as [| v4]; [discriminate |]. simpl in *.
    injection Hpath as ->.
    rewrite Hc. simpl. rewrite Ht. simpl. rewrite Ha. simpl. rewrite Hv.
    reflexivity.
  - split; vm_compute; reflexivity.
Qed.

Lemma get_citations_first_and_last_year_witness :
  head YEARS = Some 2008 ∧ last YEARS = Some 2020
  ∧ (∀ log', ∃ n, (1 ≤ n ≤ 10)%nat
       ∧ (get_citations (scripted [ok facets_body_0] (status 404))
            "cn lhcb and tc p" log').2
         = log' ++ replicate n citation_rq_0)
  ∧ get_citations (scripted [ok facets_body_0] (status 404))
      "cn lhcb and tc p" []
    = (inr (JInt 1234, JFloat "12.5"), [] ++ [citation_rq_0])
  ∧ param citation_rq_0 "earliest_date" = Some (PStr "2008--2020")
  ∧ param citation_rq_0 "facet_name" = Some (PStr "citation-summary").
Proof.
  apply (get_citations_first_and_last_year
           (scripted [ok facets_body_0] (status 404)) "cn lhcb and tc p" []
           facets_body_0
           (JObj [("citations_count", JObj [("value", JInt 1234)]);
                  ("average_citations", JObj [("value", JFloat "12.5")])])
           (JObj [("value", JInt 1234)]) (JInt 1234)
           (JObj [("value", JFloat "12.5")]) (JFloat "12.5")).
  - exists (Build_response 200 (Some facets_body_0)). repeat split; reflexivity.
  - reflexivity.
  - reflexivity.
  - reflexivity.
  - reflexivity.
  - reflexivity.
Defined.

(** ** Steps of the search generator *)

Section Steps.

Variable server : server_t.

Lemma fetch_page_log rq log :
  (fetch_page server rq log).2 = log ++ [rq].
Proof.
  unfold fetch_page, bind. pose proof (get_content_log server log rq) as H.
  destruct (get_content server rq log) as [[e | c] l]; simpl in *; subst;
    [reflexivity |].
  destruct (hits_items c); reflexivity.
Qed.

Lemma while_loop_extends fuel : ∀ content log res g' log',
  while_loop server fuel content log = Some (res, g', log') →
  ∃ new, log' = log ++ new.
Proof.
  induction fuel as [| fuel IH]; intros content log res g' log' H;
    [discriminate |].
  simpl in H. destruct (has_next content) as [e | [|]].
  - injection H as <- <- <-. exists []. symmetry. apply app_nil_r.
  - unfold bind in H. destruct (next_url content) as [e | url]; simpl in H.
    + injection H as <- <- <-. exists []. symmetry. apply app_nil_r.
    + pose proof (fetch_page_log (link_request url) log) as Hl.
      destruct (fetch_page server (link_request url) log)
        as [[e | [content' [| record pending]]] l]; simpl in *; subst.
      * injection H as <- <- <-. eauto.
      * apply IH in H as [new ->]. exists (link_request url :: new).
        rewrite <- app_assoc. reflexivity.
      * injection H as <- <- <-. eauto.
  - injection H as <- <- <-. exists []. symmetry. apply app_nil_r.
Qed.

(** A [next] only adds to the log, and adds nothing while the generator
    has pending items of the current page. *)
Lemma gen_next_extends fuel g log res g' log' :
  gen_next server fuel g log = Some (res, g', log') →
  ∃ new, log' = log ++ new ∧ (new ≠ [] → pending_of g = []).
Proof.
  destruct g as [query facets | content [| record pending] |]; simpl; intros H.
  - pose proof (fetch_page_log (search_request query facets) log) as Hl.
    destruct (fetch_page server (search_request query facets) log)
      as [[e | [content [| record pending]]] l]; simpl in *; subst.
    + injection H as <- <- <-. eauto.
    + apply while_loop_extends in H as [new ->].
      exists (search_request query facets :: new).
      rewrite <- app_assoc. auto.
    + injection H as <- <- <-. eauto.
  - apply while_loop_extends in H as [new ->]. eauto.
  - injection H as <- <- <-. exists []. split; [| congruence].
    symmetry. apply app_nil_r.
  - injection H as <- <- <-. exists []. split; [| congruence].
    symmetry. apply app_nil_r.
Qed.

(** The first [next] of a search starts with the search request. *)
Lemma gen_next_created_log fuel query facets log res g' log' :
  gen_next server fuel (GCreated query facets) log = Some (res, g', log') →
  ∃ rest, log' = log ++ search_request query facets :: rest.
Proof.
  simpl. intros H.
  pose proof (fetch_page_log (search_request query facets) log) as Hl.
  destruct (fetch_page server (search_request query facets) log)
    as [[e | [content [| record pending]]] l]; simpl in *; subst.
  - injection H as <- <- <-. eauto.
  - apply while_loop_extends in H as [new ->]. exists new.
    rewrite <- app_assoc. reflexivity.
  - injection H as <- <- <-. eauto.
Qed.

(** The decorator finds nothing to retry in a call that only makes a
    generator. *)
Lemma perform_inspire_literature_search_creates query facets log :
  perform_inspire_literature_search query facets log
  = (inr (GCreated query facets), log).
Proof. reflexivity. Qed.

End Steps.

(** ** Facets that collide with a built-in parameter *)

Lemma count_request_merged query (facets : gmap string string) :
  merged_over {[ "q" := PStr query; "size" := PInt 1 ]} facets
    (count_request query (Some facets)).
Proof.
  intros k.
  rewrite param_count_request, facets_or_empty_Some, count_params_lookup.
  destruct (facets !! k); [reflexivity |].
  repeat case_decide; subst; reflexivity || (symmetry; simplify_map_eq; reflexivity).
Qed.

Lemma search_params_merged query (facets : gmap string string) k :
  search_params query facets !! k
  = match facets !! k with
    | Some v => Some (PStr v)
    | None => ({[ "q" := PStr query ]} : gmap string pval) !! k
    end.
Proof.
  rewrite search_params_lookup. destruct (facets !! k); [reflexivity |].
  case_decide; subst; symmetry; simplify_map_eq; reflexivity.
Qed.

Lemma merged_over_replaced builtin facets rq k v :
  merged_over builtin facets rq → facets !! k = Some v →
  param rq k = Some (PStr v).
Proof. intros H Hk. rewrite (H k), Hk. reflexivity. Qed.

Lemma merged_over_kept builtin facets rq k :
  merged_over builtin facets rq → facets !! k = None →
  param rq k = builtin !! k.
Proof. intros H Hk. rewrite (H k), Hk. reflexivity. Qed.

(** C10: in the three operations the parameters sent are the built-in
    ones, [{"q": query}] and for the count [{"q": query, "size": 1}], with
    the items of the facets written over them.  This holds of every
    request of the count and of the aggregation (each call issues its one
    request between one and ten times) and of the first request of a
    search.  So without a colliding facet the request carries [q = query]
    (and the count [size = 1]); a facet ["size"] is sent in the place of
    [size = 1] by the count, and a facet ["q"] is sent in the place of the
    query by all three. *)
Theorem facets_replace_builtin_params server query (facets : gmap string string)
    log :
  (∃ rq n, (1 ≤ n ≤ 10)%nat
     ∧ (count_inspire_literature_search server query (Some facets) log).2
       = log ++ replicate n rq
     ∧ merged_over {[ "q" := PStr query; "size" := PInt 1 ]} facets rq
     ∧ (facets !! "size" = None → param rq "size" = Some (PInt 1))
     ∧ (∀ v, facets !! "size" = Some v →
             param rq "size" = Some (PStr v)
             ∧ param rq "size" ≠ Some (PInt 1))
     ∧ (facets !! "q" = None → param rq "q" = Some (PStr query))
     ∧ (∀ v, facets !! "q" = Some v → param rq "q" = Some (PStr v)))
  ∧ (∃ rq n, (1 ≤ n ≤ 10)%nat
     ∧ (perform_inspire_literature_aggregation server query (Some facets) log).2
       = log ++ replicate n rq
     ∧ merged_over {[ "q" := PStr query ]} facets rq
     ∧ (facets !! "q" = None → param rq "q" = Some (PStr query))
     ∧ (∀ v, facets !! "q" = Some v → param rq "q" = Some (PStr v)))
  ∧ (∀ fuel res g' log',
       gen_next server fuel (GCreated query (Some facets)) log
         = Some (res, g', log') →
       ∃ rq rest, log' = log ++ rq :: rest
         ∧ merged_over {[ "q" := PStr query ]} facets rq
         ∧ (facets !! "q" = None → param rq "q" = Some (PStr query))
         ∧ (∀ v, facets !! "q" = Some v → param rq "q" = Some (PStr v))).
Proof.
  assert (Hagg : merged_over {[ "q" := PStr query ]} facets
                   (aggregation_request query (Some facets))).
  { intros k. rewrite param_aggregation_request, facets_or_empty_Some.
    apply search_params_merged. }
  assert (Hsearch : merged_over {[ "q" := PStr query ]} facets
                      (search_request query (Some facets))).
  { intros k. rewrite param_search_request, facets_or_empty_Some.
    apply search_params_merged. }
  pose proof (count_request_merged query facets) as Hcount.
  split; [| split].
  - exists (count_request query (Some facets)).
    unfold count_inspire_literature_search, on_exception.
    rewrite count_body_one_request.
    destruct (retry_one_request_log server (count_request query (Some facets))
                (λ content, let? hits := getitem content "hits" in
                            getitem hits "total") (Nat.pred 10) log)
      as (n & Hn & Hlog).
    exists n. split; [simpl in Hn; lia | split; [exact Hlog |]].
    split; [exact Hcount |]. repeat split.
    + intros Hk. rewrite (merged_over_kept _ _ _ _ Hcount Hk). reflexivity.
    + apply (merged_over_replaced _ _ _ _ _ Hcount H).
    + rewrite (merged_over_replaced _ _ _ _ _ Hcount H). discriminate.
    + intros Hk. rewrite (merged_over_kept _ _ _ _ Hcount Hk). reflexivity.
    + intros v Hk. apply (merged_over_replaced _ _ _ _ _ Hcount Hk).
  - exists (aggregation_request query (Some facets)).
    unfold perform_inspire_literature_aggregation, on_exception.
    rewrite aggregation_body_one_request.
    destruct (retry_one_request_log server
                (aggregation_request query (Some facets))
                (λ content, getitem content "aggregations") (Nat.pred 10) log)
      as (n & Hn & Hlog).
    exists n. split; [simpl in Hn; lia | split; [exact Hlog |]].
    split; [exact Hagg | split].
    + intros Hk. rewrite (merged_over_kept _ _ _ _ Hagg Hk). reflexivity.
    + intros v Hk. apply (merged_over_replaced _ _ _ _ _ Hagg Hk).
  - intros fuel res g' log' H.
    apply gen_next_created_log in H as [rest ->].
    exists (search_request query (Some facets)), rest. split; [reflexivity |].
    split; [exact Hsearch | split].
    + intros Hk. rewrite (merged_over_kept _ _ _ _ Hsearch Hk). reflexivity.
    + intros v Hk. apply (merged_over_replaced _ _ _ _ _ Hsearch Hk).
Qed.

Lemma facets_replace_builtin_params_witness :
  let server := scripted [ok total_42] (status 404) in
  let query := "tc core" in
  let facets : gmap string string := {[ "size" := "25"; "q" := "cn cms" ]} in
  (∃ rq n, (1 ≤ n ≤ 10)%nat
     ∧ (count_inspire_literature_search server query (Some facets) []).2
       = [] ++ replicate n rq
     ∧ merged_over {[ "q" := PStr query; "size" := PInt 1 ]} facets rq
     ∧ (facets !! "size" = None → param rq "size" = Some (PInt 1))
     ∧ (∀ v, facets !! "size" = Some v →
             param rq "size" = Some (PStr v)
             ∧ param rq "size" ≠ Some (PInt 1))
     ∧ (facets !! "q" = None → param rq "q" = Some (PStr query))
     ∧ (∀ v, facets !! "q" = Some v → param rq "q" = Some (PStr v)))
  ∧ (∃ rq n, (1 ≤ n ≤ 10)%nat
     ∧ (perform_inspire_literature_aggregation server query (Some facets) []).2
       = [] ++ replicate n rq
     ∧ merged_over {[ "q" := PStr query ]} facets rq
     ∧ (facets !! "q" = None → param rq "q" = Some (PStr query))
     ∧ (∀ v, facets !! "q" = Some v → param rq "q" = Some (PStr v)))
  ∧ (∀ fuel res g' log',
       gen_next server fuel (GCreated query (Some facets)) []
         = Some (res, g', log') →
       ∃ rq rest, log' = [] ++ rq :: rest
         ∧ merged_over {[ "q" := PStr query ]} facets rq
         ∧ (facets !! "q" = None → param rq "q" = Some (PStr query))
         ∧ (∀ v, facets !! "q" = Some v → param rq "q" = Some (PStr v))).
Proof.
  apply (facets_replace_builtin_params (scripted [ok total_42] (status 404))
           "tc core" {[ "size" := "25"; "q" := "cn cms" ]} []).
Defined.

(** The count with the facets [{"size": "25", "q": "cn cms"}] sends those
    two values, and with no facets the built-in ones. *)
Example count_request_collision :
  param (count_request "tc core" (Some {[ "size" := "25"; "q" := "cn cms" ]}))
    "size" = Some (PStr "25")
  ∧ param (count_request "tc core" (Some {[ "size" := "25"; "q" := "cn cms" ]}))
      "q" = Some (PStr "cn cms")
  ∧ param (count_request "tc core" None) "size" = Some (PInt 1)
  ∧ param (count_request "tc core" None) "q" = Some (PStr "tc core").
Proof. vm_compute. repeat split; reflexivity. Qed.

(** ** Paginated answers *)

Lemma hits_items_page content records :
  page_records content records → hits_items content = inr records.
Proof.
  intros (hits & Hh & Hr). unfold hits_items. rewrite Hh. simpl.
  rewrite Hr. reflexivity.
Qed.

Lemma has_next_last content :
  page_next content None → has_next content = inr false.
Proof.
  intros (kvs & -> & H). unfold has_next. simpl.
  destruct (assoc "links" kvs) as [[| | | | | | links] |]; try contradiction;
    simpl; [rewrite H |]; reflexivity.
Qed.

Lemma has_next_more content url :
  page_next content (Some url) →
  has_next content = inr true ∧ next_url content = inr url.
Proof.
  intros (kvs & -> & H). unfold has_next, next_url. simpl.
  destruct (assoc "links" kvs) as [[| | | | | | links] |];
    try contradiction; try discriminate.
  simpl. rewrite H. split; reflexivity.
Qed.

Section Pagination.

Variable server : server_t.



Lemma fetch_page_responds log rq content records :
  responds server log rq content → page_records content records →
  fetch_page server rq log = (inr (content, records), log ++ [rq]).
Proof.
  intros Hok Hr. unfold fetch_page, bind.
  rewrite (get_content_responds server log rq content Hok).
  rewrite (hits_items_page content records Hr). reflexivity.
Qed.

Lemma fetch_page_fails log rq e :
  fails server log rq e →
  fetch_page server rq log = (inl e, log ++ [rq]).
Proof.
  intros Hf. unfold fetch_page, bind.
  rewrite (get_content_fails server log rq e Hf). reflexivity.
Qed.

Lemma drain_S fuel n g log :
  drain server fuel (S n) g log =
    match gen_next server fuel g log with
    | Some (res, g', log') => finish res log' (drain server fuel n g' log')
    | None => None
    end.
Proof.
  simpl. destruct (gen_next server fuel g log) as [[[[r | | e] g'] log'] |];
    reflexivity.
Qed.

Lemma drain_pending fuel content log records ending log_end rounds :
  (rounds < fuel)%nat →
  runs_to server fuel content log records ending log_end rounds →
  ∀ pending n, (length pending + length records < n)%nat →
    drain server fuel n (GSuspended content pending) log
    = Some (pending ++ records, ending, log_end).
Proof.
  intros Hfuel Hruns.
  induction pending as [| record pending IH]; intros n Hn;
    (destruct n as [| n]; [simpl in Hn; lia |]); rewrite drain_S.
  - destruct (Hruns fuel n Hfuel ltac:(simpl in Hn; lia))
      as (res & g' & log' & Hw & Hf).
    simpl. rewrite Hw. exact Hf.
  - simpl. rewrite (IH n) by (simpl in Hn; lia). reflexivity.
Qed.

Lemma follows_runs log content pages rqs ending :
  follows server log content pages rqs ending →
  ∀ fuel, (length pages < fuel)%nat →
    runs_to server fuel content log (concat pages) ending (log ++ rqs) (length pages).
Proof.
  induction 1 as [log content Hlast
                 | log content url e Hnext Hfail
                 | log content url content' records pages rqs ending
                     Hnext Hok Hrecs Hrest IH];
    intros fuel Hfuel f n Hf Hn; (destruct f as [| f]; [lia |]); simpl.
  - rewrite (has_next_last content Hlast).
    eexists _, _, _. split; [reflexivity |]. simpl.
    rewrite app_nil_r. reflexivity.
  - destruct (has_next_more content url Hnext) as [-> Hurl].
    unfold bind at 1. rewrite Hurl. simpl.
    rewrite (fetch_page_fails _ _ e Hfail).
    eexists _, _, _. split; reflexivity.
  - destruct (has_next_more content url Hnext) as [-> Hurl].
    unfold bind at 1. rewrite Hurl. simpl.
    rewrite (fetch_page_responds _ _ content' records Hok Hrecs).
    simpl in Hfuel.
    assert (Happ : (log ++ [link_request url]) ++ rqs
                   = log ++ link_request url :: rqs)
      by (rewrite <- app_assoc; reflexivity).
    rewrite <- Happ.
    destruct records as [| record records].
    + simpl in Hf. apply (IH fuel); [lia | lia | exact Hn].
    + eexists _, _, _. split; [reflexivity |]. simpl.
      simpl in Hn. rewrite length_app in Hn.
      rewrite (drain_pending fuel content' _ (concat pages) ending
                 ((log ++ [link_request url]) ++ rqs) (length pages));
        [reflexivity | lia | apply IH; lia | simpl; lia].
Qed.

Lemma drain_created fuel n query facets log content items log' :
  fetch_page server (search_request query facets) log
    = (inr (content, items), log') →
  drain server fuel n (GCreated query facets) log
  = drain server fuel n (GSuspended content items) log'.
Proof.
  intros H. destruct n as [| n]; [reflexivity |].
  rewrite !drain_S. simpl. rewrite H. reflexivity.
Qed.

(** An iteration to the end over paginated server answers. *)
Lemma paginated_drain log query facets pages rqs ending :
  paginated server log (search_request query facets) pages rqs ending →
  ∀ fuel n, (length pages ≤ fuel)%nat → (length (concat pages) < n)%nat →
    drain server fuel n (GCreated query facets) log
    = Some (concat pages, ending, log ++ rqs).
Proof.
  intros H. inversion H as [? ? e Hfail | ? ? content records pages' rqs' ?
                                          Hok Hrecs Hrest]; subst;
    intros fuel n Hfuel Hn.
  - destruct n as [| n]; [simpl in Hn; lia |]. rewrite drain_S. simpl.
    rewrite (fetch_page_fails _ _ e Hfail). reflexivity.
  - rewrite (drain_created fuel n query facets log content records
               (log ++ [search_request query facets]))
      by (apply fetch_page_responds; assumption).
    simpl in Hfuel, Hn. rewrite length_app in Hn.
    rewrite (drain_pending fuel content _ (concat pages') ending
               ((log ++ [search_request query facets]) ++ rqs') (length pages'));
      [rewrite <- app_assoc; reflexivity | lia | | lia].
    apply follows_runs; [exact Hrest | lia].
Qed.

End Pagination.

(** ** The search *)

Lemma two_pages_paginated :
  paginated two_pages [] (search_request "cn cms" None)
    [[record 1; record 2]; [record 3]]
    [search_request "cn cms" None; link_request page_2_url] None.
Proof.
  eapply paginated_page.
  - eexists. repeat split; reflexivity.
  - eexists. split; reflexivity.
  - eapply follows_page.
    + eexists. split; reflexivity.
    + eexists. repeat split; reflexivity.
    + eexists. split; reflexivity.
    + apply follows_end. eexists. split; reflexivity.
Defined.



(** A single page: one request. *)
Example search_single_page :
  iterate_search (scripted [ok (page [record 1; record 2] None)] (status 404))
    1 3 "cn cms" None []
  = Some ([record 1; record 2], None, [search_request "cn cms" None]).
Proof. vm_compute. reflexivity. Qed.

(** ** A fetch that fails *)

Section Failure.

Variable server : server_t.

Lemma while_loop_raised fuel : ∀ content log e g' log',
  while_loop server fuel content log = Some (Raised e, g', log') →
  g' = GFinished.
Proof.
  induction fuel as [| fuel IH]; intros content log e g' log' H;
    [discriminate |].
  simpl in H. destruct (has_next content) as [e0 | [|]];
    [congruence | | congruence].
  destruct (bind _ _ log) as [[e0 | [content' [| r pending]]] l];
    [congruence | eauto | congruence].
Qed.

(** A generator that has raised is finished. *)
Lemma gen_next_raised fuel g log e g' log' :
  gen_next server fuel g log = Some (Raised e, g', log') →
  g' = GFinished.
Proof.
  destruct g as [query facets | content [| r pending] |]; simpl; intros H.
  - destruct (fetch_page server _ log) as [[e0 | [content [| r pending]]] l];
      simpl in H; [congruence | eapply while_loop_raised; eauto | congruence].
  - eapply while_loop_raised; eauto.
  - congruence.
  - congruence.
Qed.

End Failure.

Lemma second_page_fails_paginated :
  paginated second_page_fails [] (search_request "cn cms" None)
    [[record 1; record 2]]
    [search_request "cn cms" None; link_request page_2_url]
    (Some (HTTPError 500)).
Proof.
  eapply paginated_page.
  - eexists. repeat split; reflexivity.
  - eexists. split; reflexivity.
  - eapply follows_failure.
    + eexists. split; reflexivity.
    + right. eexists. repeat split; reflexivity.
Defined.

(** C8: when the fetch of some page fails (the first page or one reached
    by next links), the iteration over the search ends with that error
    and not normally: [list(...)] of it raises the error and returns no
    list at all, and the generator that raised is finished, every later
    [next] finding it exhausted without any request. *)
Theorem failed_fetch_aborts_search server query facets log pages rqs e :
  paginated server log (search_request query facets) pages rqs (Some e) →
  ∀ fuel n, (length pages ≤ fuel)%nat → (length (concat pages) < n)%nat →
    iterate_search server fuel n query facets log
      = Some (concat pages, Some e, log ++ rqs)
    ∧ list_search server fuel n query facets log = Some (inl e, log ++ rqs)
    ∧ (∀ g l e' g' l',
         gen_next server fuel g l = Some (Raised e', g', l') →
         gen_next server fuel g' l' = Some (Stopped, GFinished, l')).
Proof.
  intros H fuel n Hfuel Hn.
  assert (Hd : drain server fuel n (GCreated query facets) log
               = Some (concat pages, Some e, log ++ rqs))
    by (apply paginated_drain; assumption).
  split; [| split].
  - unfold iterate_search.
    rewrite perform_inspire_literature_search_creates. exact Hd.
  - unfold list_search, py_list.
    rewrite perform_inspire_literature_search_creates, Hd. reflexivity.
  - intros g l e' g' l' Hr. apply gen_next_raised in Hr. subst g'. reflexivity.
Qed.

Lemma failed_fetch_aborts_search_witness :
  iterate_search second_page_fails 1 3 "cn cms" None []
    = Some (concat [[record 1; record 2]], Some (HTTPError 500),
            [] ++ [search_request "cn cms" None; link_request page_2_url])
  ∧ list_search second_page_fails 1 3 "cn cms" None []
    = Some (inl (HTTPError 500),
            [] ++ [search_request "cn cms" None; link_request page_2_url])
  ∧ (∀ g l e' g' l',
       gen_next second_page_fails 1 g l = Some (Raised e', g', l') →
       gen_next second_page_fails 1 g' l' = Some (Stopped, GFinished, l')).
Proof.
  apply (failed_fetch_aborts_search second_page_fails "cn cms" None []
           [[record 1; record 2]]
           [search_request "cn cms" None; link_request page_2_url]
           (HTTPError 500) second_page_fails_paginated 1%nat 3%nat).
  - simpl. lia.
  - simpl. lia.
Defined.

(** ** Laziness *)

Section Lazy.

Variable server : server_t.

Lemma islice_S fuel k g log :
  islice server fuel (S k) g log =
    match gen_next server fuel g log with
    | Some (res, g', log') =>
        slice_finish res g' log' (islice server fuel k g' log')
    | None => None
    end.
Proof.
  simpl. destruct (gen_next server fuel g log) as [[[[r | | e] g'] log'] |];
    reflexivity.
Qed.

Lemma islice_pending fuel content log pages rqs :
  (length pages < fuel)%nat →
  slices_to server fuel content log pages rqs →
  ∀ pending k N,
    (k ≤ length pending + length (concat (take N pages)))%nat →
    ∃ j g'', (j ≤ N)%nat
      ∧ islice server fuel k (GSuspended content pending) log
        = Some (take k (pending ++ concat pages), g'', log ++ take j rqs).
Proof.
  intros Hfuel Hs.
  induction pending as [| record pending IH]; intros k N Hk;
    (destruct k as [| k];
     [exists 0%nat; eexists; split; [lia |]; simpl;
      rewrite take_0, app_nil_r; reflexivity |]);
    rewrite islice_S.
  - destruct (Hs fuel k N Hfuel ltac:(simpl in Hk; lia))
      as (res & g' & log' & Hw & j & g'' & Hj & Hf).
    exists j, g''. split; [exact Hj |]. simpl. rewrite Hw. exact Hf.
  - destruct (IH k N ltac:(simpl in Hk; lia)) as (j & g'' & Hj & Hi).
    exists j, g''. split; [exact Hj |]. simpl. rewrite Hi. reflexivity.
Qed.

Lemma follows_slices log content pages rqs ending :
  follows server log content pages rqs ending →
  ∀ fuel, (length pages < fuel)%nat → slices_to server fuel content log pages rqs.
Proof.
  induction 1 as [log content Hlast
                 | log content url e Hnext Hfail
                 | log content url content' records pages rqs ending
                     Hnext Hok Hrecs Hrest IH];
    intros fuel Hfuel f k N Hf Hk.
  - rewrite take_nil in Hk. simpl in Hk. lia.
  - rewrite take_nil in Hk. simpl in Hk. lia.
  - destruct f as [| f]; [lia |].
    destruct N as [| N]; [simpl in Hk; lia |].
    simpl in Hfuel, Hf, Hk. rewrite length_app in Hk.
    simpl while_loop.
    destruct (has_next_more content url Hnext) as [-> Hurl].
    unfold bind at 1. rewrite Hurl. simpl lift. unfold ret at 1.
    rewrite (fetch_page_responds server _ _ content' records Hok Hrecs).
    destruct records as [| record records].
    + destruct (IH fuel ltac:(lia) f k N ltac:(lia) ltac:(simpl in Hk; lia))
        as (res & g' & log' & Hw & j & g'' & Hj & Hfin).
      exists res, g', log'. split; [exact Hw |].
      exists (S j), g''. split; [lia |].
      rewrite Hfin. simpl. rewrite <- app_assoc. reflexivity.
    + eexists _, _, _. split; [reflexivity |].
      destruct (islice_pending fuel content' (log ++ [link_request url])
                  pages rqs ltac:(lia) (IH fuel ltac:(lia)) records k N
                  ltac:(simpl in Hk; lia))
        as (j & g'' & Hj & Hi).
      exists (S j), g''. split; [lia |].
      simpl. rewrite Hi, <- app_assoc. reflexivity.
Qed.

Lemma islice_created fuel k query facets log content items log' :
  fetch_page server (search_request query facets) log
    = (inr (content, items), log') →
  islice server fuel (S k) (GCreated query facets) log
  = islice server fuel (S k) (GSuspended content items) log'.
Proof. intros H. rewrite !islice_S. simpl. rewrite H. reflexivity. Qed.

Lemma paginated_islice log query facets pages rqs ending :
  paginated server log (search_request query facets) pages rqs ending →
  ∀ fuel k N, (length pages ≤ fuel)%nat →
    (k ≤ length (concat (take N pages)))%nat →
    ∃ j g', (j ≤ N)%nat
      ∧ islice server fuel k (GCreated query facets) log
        = Some (take k (concat pages), g', log ++ take j rqs).
Proof.
  intros H fuel k N Hfuel Hk.
  destruct k as [| k].
  { exists 0%nat. eexists. split; [lia |]. simpl.
    rewrite take_0, app_nil_r. reflexivity. }
  inversion H as [? ? e Hfail | ? ? content records pages' rqs' ?
                                Hok Hrecs Hrest]; subst.
  - rewrite take_nil in Hk. simpl in Hk. lia.
  - destruct N as [| N]; [simpl in Hk; lia |].
    simpl in Hfuel, Hk. rewrite length_app in Hk.
    rewrite (islice_created fuel k query facets log content records
               (log ++ [search_request query facets]))
      by (apply fetch_page_responds; assumption).
    destruct (islice_pending fuel content (log ++ [search_request query facets])
                pages' rqs' ltac:(lia)
                (follows_slices _ _ _ _ _ Hrest fuel ltac:(lia))
                records (S k) N ltac:(lia))
      as (j & g'' & Hj & Hi).
    exists (S j), g''. split; [lia |].
    rewrite Hi. simpl. rewrite <- app_assoc. reflexivity.
Qed.

End Lazy.

(** C7: the search is lazy and goes page by page.  Calling
    [perform_inspire_literature_search] issues no request.  Over paginated
    answers, a consumer that takes [k] records and stops, [k] being at
    most the number of records of the first [N] pages, has caused at most
    [N] requests, the first ones of the walk: the request of a page is not
    issued while records of the pages before it are still to be handed
    out, and nothing is fetched for a consumer that has stopped.  In
    general a [next] issues requests only when the generator has no
    pending record, and a closed generator issues none. *)
Theorem search_is_lazy server query facets log pages rqs ending :
  paginated server log (search_request query facets) pages rqs ending →
  perform_inspire_literature_search query facets log
    = (inr (GCreated query facets), log)
  ∧ (∀ fuel k N, (length pages ≤ fuel)%nat →
       (k ≤ length (concat (take N pages)))%nat →
       ∃ j g', (j ≤ N)%nat
         ∧ islice server fuel k (GCreated query facets) log
           = Some (take k (concat pages), g', log ++ take j rqs))
  ∧ (∀ fuel g l res g' l',
       gen_next server fuel g l = Some (res, g', l') →
       ∃ new, l' = l ++ new ∧ (new ≠ [] → pending_of g = []))
  ∧ (∀ fuel g l,
       gen_next server fuel (gen_close g) l = Some (Stopped, GFinished, l)).
Proof.
  intros H. split; [reflexivity | split; [| split]].
  - intros fuel k N Hfuel Hk.
    apply (paginated_islice server log query facets pages rqs ending H);
      assumption.
  - intros fuel g l res g' l'. apply gen_next_extends.
  - reflexivity.
Qed.

Lemma search_is_lazy_witness :
  perform_inspire_literature_search "cn cms" None []
    = (inr (GCreated "cn cms" None), [])
  ∧ (∀ fuel k N, (length [[record 1; record 2]; [record 3]] ≤ fuel)%nat →
       (k ≤ length (concat (take N [[record 1; record 2]; [record 3]])))%nat →
       ∃ j g', (j ≤ N)%nat
         ∧ islice two_pages fuel k (GCreated "cn cms" None) []
           = Some (take k (concat [[record 1; record 2]; [record 3]]), g',
                   [] ++ take j [search_request "cn cms" None;
                                 link_request page_2_url]))
  ∧ (∀ fuel g l res g' l',
       gen_next two_pages fuel g l = Some (res, g', l') →
       ∃ new, l' = l ++ new ∧ (new ≠ [] → pending_of g = []))
  ∧ (∀ fuel g l,
       gen_next two_pages fuel (gen_close g) l = Some (Stopped, GFinished, l)).
Proof.
  apply (search_is_lazy two_pages "cn cms" None []
           [[record 1; record 2]; [record 3]]
           [search_request "cn cms" None; link_request page_2_url] None
           two_pages_paginated).
Defined.

(** Two records wanted, both on the first page: the second page is never
    asked for. *)
Example search_stops_after_first_page :
  islice two_pages 2 2 (GCreated "cn cms" None) []
  = Some ([record 1; record 2], GFinished, [search_request "cn cms" None]).
Proof. vm_compute. reflexivity. Qed.

(** ** Retries *)

(** In the search nothing is retried: the failure of the first request is
    raised to the consumer by the first [next], after that one request. *)
Lemma search_first_fetch_not_retried server query facets log e fuel :
  fails server log (search_request query facets) e →
  gen_next server fuel (GCreated query facets) log
  = Some (Raised e, GFinished, log ++ [search_request query facets]).
Proof.
  intros H. simpl. rewrite (fetch_page_fails server _ _ e H). reflexivity.
Qed.

(** The same for a page reached by a next link. *)
Lemma search_page_fetch_not_retried server content url log e fuel :
  page_next content (Some url) →
  fails server log (link_request url) e →
  gen_next server (S fuel) (GSuspended content []) log
  = Some (Raised e, GFinished, log ++ [link_request url]).
Proof.
  intros Hnext H. simpl.
  destruct (has_next_more content url Hnext) as [-> Hurl].
  unfold bind at 1. rewrite Hurl. simpl.
  rewrite (fetch_page_fails server _ _ e H). reflexivity.
Qed.

(** C2, on the code: against a server that answers the first attempt with
    an error status and the second with a good page, the count succeeds
    after two requests, but the search raises the error after one request:
    its page fetch is not tried again. *)
Theorem search_fetch_gives_up_at_first_error :
  count_inspire_literature_search fails_once "cn cms" None []
    = (inr (JInt 1), [count_request "cn cms" None; count_request "cn cms" None])
  ∧ iterate_search fails_once 10 10 "cn cms" None []
    = Some ([], Some (HTTPError 500), [search_request "cn cms" None])
  ∧ list_search fails_once 10 10 "cn cms" None []
    = Some (inl (HTTPError 500), [search_request "cn cms" None]).
Proof. vm_compute. repeat split; reflexivity. Qed.

(** C3, on the code: the fetch of page 3 fails once; the records of pages
    1 and 2 have been handed out, the iteration ends with the error, and
    the log holds three requests: page 3 was asked for once and not again
    (and pages 1 and 2 once each). *)
Theorem third_page_is_not_retried :
  iterate_search third_page_fails_once 10 10 "cn cms" None []
  = Some ([record 1; record 2], Some (HTTPError 503),
          [search_request "cn cms" None; link_request page_2_url;
           link_request page_3_url]).
Proof. vm_compute. reflexivity. Qed.

(** The retry policy as the count has it: after [failures] error
    responses, fewer than ten, a good response makes the call return
    [hits.total], [failures + 1] requests having been issued. *)
Theorem count_succeeds_after_failures server query facets log failures content
    hits total :
  (failures < 10)%nat →
  (∀ i, (i < failures)%nat →
        http_error server (log ++ replicate i (count_request query facets))
          (count_request query facets)) →
  responds server (log ++ replicate failures (count_request query facets))
    (count_request query facets) content →
  getitem content "hits" = inr hits →
  getitem hits "total" = inr total →
  count_inspire_literature_search server query facets log
  = (inr total, log ++ replicate (S failures) (count_request query facets)).
Proof.
  intros Hlt Hfail Hok Hh Ht.
  apply (count_retried server query facets log failures content hits total);
    assumption.
Qed.

Lemma count_succeeds_after_failures_witness :
  count_inspire_literature_search fails_once "cn cms" None []
  = (inr (JInt 1), [] ++ replicate 2 (count_request "cn cms" None)).
Proof.
  apply (count_succeeds_after_failures fails_once "cn cms" None [] 1
           (page [record 1] None)
           (JObj [("hits", JArr [record 1]); ("total", JInt 1)]) (JInt 1)).
  - lia.
  - intros i Hi. assert (i = 0%nat) as -> by lia.
    exists (Build_response 500 None). split; reflexivity.
  - exists (Build_response 200 (Some (page [record 1] None))).
    repeat split; reflexivity.
  - reflexivity.
  - reflexivity.
Defined.

(** The retry policy as the count has it: when the ten attempts all get an
    error response, the call raises the [HTTPError] after exactly ten
    requests. *)
Theorem count_fails_after_ten_attempts server query facets log :
  (∀ i, (i < 10)%nat →
        http_error server (log ++ replicate i (count_request query facets))
          (count_request query facets)) →
  ∃ code,
    count_inspire_literature_search server query facets log
    = (inl (HTTPError code), log ++ replicate 10 (count_request query facets)).
Proof. intros Hfail. apply count_gives_up. exact Hfail. Qed.

Lemma count_fails_after_ten_attempts_witness :
  ∃ code,
    count_inspire_literature_search always_fails "cn cms" None []
    = (inl (HTTPError code), [] ++ replicate 10 (count_request "cn cms" None)).
Proof.
  apply (count_fails_after_ten_attempts always_fails "cn cms" None []).
  intros i Hi. exists (Build_response 500 None). split; reflexivity.
Defined.

(** The same two for the aggregation. *)
Theorem aggregation_succeeds_after_failures server query facets log failures
    content aggregations :
  (failures < 10)%nat →
  (∀ i, (i < failures)%nat →
        http_error server (log ++ replicate i (aggregation_request query facets))
          (aggregation_request query facets)) →
  responds server (log ++ replicate failures (aggregation_request query facets))
    (aggregation_request query facets) content →
  getitem content "aggregations" = inr aggregations →
  perform_inspire_literature_aggregation server query facets log
  = (inr aggregations,
     log ++ replicate (S failures) (aggregation_request query facets)).
Proof.
  intros Hlt Hfail Hok Ha.
  apply (aggregation_retried server query facets log failures content
           aggregations);
    assumption.
Qed.

Lemma aggregation_succeeds_after_failures_witness :
  perform_inspire_literature_aggregation
      (scripted [status 502; status 503; ok facets_body_0] (status 404))
      "cn cms and tc p" None []
  = (inr aggregations_0,
     [] ++ replicate 3 (aggregation_request "cn cms and tc p" None)).
Proof.
  apply (aggregation_succeeds_after_failures
           (scripted [status 502; status 503; ok facets_body_0] (status 404))
           "cn cms and tc p" None [] 2 facets_body_0 aggregations_0).
  - lia.
  - intros i Hi.
    destruct i as [| [| i]]; [| | lia].
    + exists (Build_response 502 None). split; reflexivity.
    + exists (Build_response 503 None). split; reflexivity.
  - exists (Build_response 200 (Some facets_body_0)). repeat split; reflexivity.
  - reflexivity.
Defined.

(** Ten error responses: the aggregation raises after exactly ten
    requests. *)
Theorem aggregation_fails_after_ten_attempts server query facets log :
  (∀ i, (i < 10)%nat →
        http_error server (log ++ replicate i (aggregation_request query facets))
          (aggregation_request query facets)) →
  ∃ code,
    perform_inspire_literature_aggregation server query facets log
    = (inl (HTTPError code),
       log ++ replicate 10 (aggregation_request query facets)).
Proof. intros Hfail. apply aggregation_gives_up. exact Hfail. Qed.

Lemma aggregation_fails_after_ten_attempts_witness :
  ∃ code,
    perform_inspire_literature_aggregation always_fails "cn cms and tc p" None []
    = (inl (HTTPError code),
       [] ++ replicate 10 (aggregation_request "cn cms and tc p" None)).
Proof.
  apply (aggregation_fails_after_ten_attempts always_fails
           "cn cms and tc p" None []).
  intros i Hi. exists (Build_response 500 None). split; reflexivity.
Defined.

(** ** Failures that are not HTTP errors *)

Lemma getitem_error v k e :
  getitem v k = inl e → e = KeyError k ∨ e = TypeError.
Proof.
  destruct v as [| | | | | | kvs]; simpl; try (intros [= <-]; auto).
  destruct (assoc k kvs); [discriminate | intros [= <-]; auto].
Qed.

Lemma getpath_error ks : ∀ v e,
  getpath v ks = inl e → (∃ k, k ∈ ks ∧ e = KeyError k) ∨ e = TypeError.
Proof.
  induction ks as [| k ks IH]; intros v e; simpl; [discriminate |].
  destruct (getitem v k) as [e' | v'] eqn:Hg; simpl.
  - intros [= <-]. destruct (getitem_error v k e' Hg) as [-> | ->]; [left | auto].
    exists k. split; [left | reflexivity].
  - intros H. destruct (IH v' e H) as [(k' & Hk & ->) | ->]; [left | auto].
    exists k'. split; [right; exact Hk | reflexivity].
Qed.

Lemma getpath_error_not_http ks v e :
  getpath v ks = inl e → is_HTTPError e = false.
Proof.
  intros H. destruct (getpath_error ks v e H) as [(k & _ & ->) | ->]; reflexivity.
Qed.

Section OtherFailures.

Variable server : server_t.

Lemma one_request_breaks rq post log e :
  breaks server log rq post e →
  one_request server rq post log = (inl e, log ++ [rq]).
Proof.
  intros [[Hs He] | [(resp & Hs & Hst & Hb & ->) | (content & Hok & Hp)]].
  - apply one_request_fails. left. exact Hs.
  - unfold one_request, get_content, bind, session_get, raise_for_status,
      response_json.
    rewrite Hs, Hst, Hb. reflexivity.
  - rewrite (one_request_responds server rq post log content Hok), Hp.
    reflexivity.
Qed.

End OtherFailures.

(** The count does not retry what is not an HTTP error: when
    [session.get] raises another exception, when the body of a good
    response is not JSON, or when [hits] or [total] is missing from it, the
    exception is raised after exactly one request; a failed lookup raises
    [KeyError] for the missing key, or [TypeError]. *)
Theorem count_raises_other_failures_at_once server query facets log e :
  breaks server log (count_request query facets)
    (λ content, getpath content ["hits"; "total"]) e →
  count_inspire_literature_search server query facets log
    = (inl e, log ++ [count_request query facets])
  ∧ is_HTTPError e = false.
Proof.
  intros H.
  assert (He : is_HTTPError e = false).
  { destruct H as [[_ He] | [(resp & _ & _ & _ & ->) | (content & _ & Hp)]];
      [exact He | reflexivity | exact (getpath_error_not_http _ _ _ Hp)]. }
  split; [| exact He].
  unfold count_inspire_literature_search, on_exception.
  rewrite count_body_one_request.
  apply retry_propagates; [| exact He].
  apply one_request_breaks.
  destruct H as [H | [H | (content & Hok & Hp)]]; [left; exact H | right; left; exact H |].
  right; right. exists content. split; [exact Hok |].
  simpl in Hp. destruct (getitem content "hits") as [e' | hits]; simpl in *;
    [exact Hp |].
  destruct (getitem hits "total"); simpl in *; [exact Hp | discriminate].
Qed.

Lemma count_raises_other_failures_at_once_witness :
  count_inspire_literature_search
      (scripted [ok (JObj [("hits", JObj [("hits", JArr [])])])] (ok total_42))
      "cn cms" None []
    = (inl (KeyError "total"), [] ++ [count_request "cn cms" None])
  ∧ is_HTTPError (KeyError "total") = false.
Proof.
  apply (count_raises_other_failures_at_once
           (scripted [ok (JObj [("hits", JObj [("hits", JArr [])])])] (ok total_42))
           "cn cms" None [] (KeyError "total")).
  right; right. exists (JObj [("hits", JObj [("hits", JArr [])])]). split.
  - exists (Build_response 200 (Some (JObj [("hits", JObj [("hits", JArr [])])]))).
    repeat split; reflexivity.
  - reflexivity.
Defined.

(** The aggregation does not retry what is not an HTTP error either: a
    failure of [session.get] other than [HTTPError], a body that is not
    JSON or a content without [aggregations] is raised after exactly one
    request. *)
Theorem aggregation_raises_other_failures_at_once server query facets log e :
  breaks server log (aggregation_request query facets)
    (λ content, getitem content "aggregations") e →
  perform_inspire_literature_aggregation server query facets log
    = (inl e, log ++ [aggregation_request query facets])
  ∧ is_HTTPError e = false.
Proof.
  intros H.
  assert (He : is_HTTPError e = false).
  { destruct H as [[_ He] | [(resp & _ & _ & _ & ->) | (content & _ & Hp)]];
      [exact He | reflexivity |].
    destruct (getitem_error _ _ _ Hp) as [-> | ->]; reflexivity. }
  split; [| exact He].
  unfold perform_inspire_literature_aggregation, on_exception.
  rewrite aggregation_body_one_request.
  apply retry_propagates; [| exact He].
  apply one_request_breaks. exact H.
Qed.

Lemma aggregation_raises_other_failures_at_once_witness :
  perform_inspire_literature_aggregation
      (scripted [inl (RequestException "ConnectionError")] (ok facets_body_0))
      "cn cms and tc p" None []
    = (inl (RequestException "ConnectionError"),
       [] ++ [aggregation_request "cn cms and tc p" None])
  ∧ is_HTTPError (RequestException "ConnectionError") = false.
Proof.
  apply (aggregation_raises_other_failures_at_once
           (scripted [inl (RequestException "ConnectionError")] (ok facets_body_0))
           "cn cms and tc p" None [] (RequestException "ConnectionError")).
  left. split; reflexivity.
Defined.

(** ** The scan of the years *)

Lemma keep_last_fold (years : list Z) : ∀ seen,
  fold_left (λ _ year, Some year) years seen
  = match last years with Some year => Some year | None => seen end.
Proof.
  induction years as [| y years IH]; intros seen; [reflexivity |].
  simpl fold_left. rewrite IH.
  destruct years as [| y' years]; [reflexivity |].
  rewrite last_cons_cons. destruct (last (y' :: years)) eqn:Hl; [reflexivity |].
  apply last_None in Hl. discriminate.
Qed.

(** The scan at the head of [get_citations], over any range of years: it
    gives the first and the last year when there are at least two years;
    with one year only the loop never binds [last_year] and the function
    raises [UnboundLocalError]; with none, [next] raises [StopIteration]. *)
Theorem first_and_last_of_range (years : list Z) :
  first_and_last years =
    match years with
    | [] => inl StopIteration
    | [_] => inl UnboundLocalError
    | first_year :: years' => inr (first_year, default first_year (last years'))
    end
  ∧ (∀ first_year last_year,
       first_and_last years = inr (first_year, last_year) →
       (2 ≤ length years)%nat
       ∧ head years = Some first_year ∧ last years = Some last_year).
Proof.
  assert (H : first_and_last years =
    match years with
    | [] => inl StopIteration
    | [_] => inl UnboundLocalError
    | first_year :: years' => inr (first_year, default first_year (last years'))
    end).
  { destruct years as [| y [| y' years]]; [reflexivity | reflexivity |].
    unfold first_and_last. rewrite keep_last_fold.
    destruct (last (y' :: years)) eqn:Hl; [reflexivity |].
    apply last_None in Hl. discriminate. }
  split; [exact H |].
  intros first_year last_year Heq. rewrite H in Heq.
  destruct years as [| y [| y' years]]; [discriminate | discriminate |].
  injection Heq as <- <-. split; [simpl; lia | split; [reflexivity |]].
  rewrite last_cons_cons.
  destruct (last (y' :: years)) eqn:Hl; [reflexivity |].
  apply last_None in Hl. discriminate.
Qed.

Lemma first_and_last_of_range_witness :
  first_and_last (py_range 2015 2019) =
    match py_range 2015 2019 with
    | [] => inl StopIteration
    | [_] => inl UnboundLocalError
    | first_year :: years' => inr (first_year, default first_year (last years'))
    end
  ∧ (∀ first_year last_year,
       first_and_last (py_range 2015 2019) = inr (first_year, last_year) →
       (2 ≤ length (py_range 2015 2019))%nat
       ∧ head (py_range 2015 2019) = Some first_year
       ∧ last (py_range 2015 2019) = Some last_year).
Proof. apply (first_and_last_of_range (py_range 2015 2019)). Defined.

(** ** Pages that are not as expected *)

Section Malformed.

Variable server : server_t.

Lemma fetch_page_malformed log rq content e :
  responds server log rq content → hits_items content = inl e →
  fetch_page server rq log = (inl e, log ++ [rq]).
Proof.
  intros Hok He. unfold fetch_page, bind.
  rewrite (get_content_responds server log rq content Hok). simpl.
  rewrite He. reflexivity.
Qed.

Lemma has_next_scalar content links :
  getitem content "links" = inr links → is_scalar links →
  has_next content = inl TypeError.
Proof.
  destruct content as [| | | | | | kvs]; simpl; try discriminate.
  unfold has_next. simpl.
  destruct (assoc "links" kvs) as [l |]; [| discriminate].
  intros [= ->] Hs. simpl.
  destruct links; simpl in *; try reflexivity; contradiction.
Qed.

End Malformed.

(** A first page without [hits.hits]: the first [next] raises the
    [KeyError] (or the [TypeError] of a lookup in something that is not a
    mapping) after the one request, no record is handed out and the
    generator is finished. *)
Theorem search_raises_on_missing_hits server query facets log content e :
  responds server log (search_request query facets) content →
  getpath content ["hits"; "hits"] = inl e →
  ∀ fuel n,
    gen_next server fuel (GCreated query facets) log
      = Some (Raised e, GFinished, log ++ [search_request query facets])
    ∧ iterate_search server fuel (S n) query facets log
      = Some ([], Some e, log ++ [search_request query facets])
    ∧ ((∃ k, k ∈ ["hits"; "hits"] ∧ e = KeyError k) ∨ e = TypeError).
Proof.
  intros Hok Hp fuel n.
  assert (Hh : hits_items content = inl e).
  { unfold hits_items. simpl in Hp.
    destruct (getitem content "hits") as [e' | hits]; simpl in *; [congruence |].
    destruct (getitem hits "hits"); simpl in *; [congruence | discriminate]. }
  assert (Hn : gen_next server fuel (GCreated query facets) log
               = Some (Raised e, GFinished, log ++ [search_request query facets])).
  { simpl. rewrite (fetch_page_malformed server _ _ content e Hok Hh).
    reflexivity. }
  split; [exact Hn | split; [| exact (getpath_error _ _ _ Hp)]].
  unfold iterate_search. rewrite perform_inspire_literature_search_creates.
  rewrite drain_S, Hn. reflexivity.
Qed.

Lemma search_raises_on_missing_hits_witness :
  gen_next (scripted [ok facets_body_0] (status 404)) 1
      (GCreated "cn cms" None) []
    = Some (Raised (KeyError "hits"), GFinished,
            [] ++ [search_request "cn cms" None])
  ∧ iterate_search (scripted [ok facets_body_0] (status 404)) 1 (S 0)
      "cn cms" None []
    = Some ([], Some (KeyError "hits"), [] ++ [search_request "cn cms" None])
  ∧ ((∃ k, k ∈ ["hits"; "hits"] ∧ KeyError "hits" = KeyError k)
     ∨ KeyError "hits" = TypeError).
Proof.
  apply (search_raises_on_missing_hits (scripted [ok facets_body_0] (status 404))
           "cn cms" None [] facets_body_0 (KeyError "hits")).
  - exists (Build_response 200 (Some facets_body_0)). repeat split; reflexivity.
  - reflexivity.
Defined.

(** A first page whose [links] is there but is null (or a number or a
    boolean): its records are handed out, and then the test of the [while]
    loop raises [TypeError]; no other request is issued. *)
Theorem search_raises_on_scalar_links server query facets log content records links :
  responds server log (search_request query facets) content →
  page_records content records →
  getitem content "links" = inr links →
  is_scalar links →
  ∀ fuel n, (0 < fuel)%nat → (length records < n)%nat →
    iterate_search server fuel n query facets log
    = Some (records, Some TypeError, log ++ [search_request query facets]).
Proof.
  intros Hok Hrecs Hl Hs fuel n Hfuel Hn.
  unfold iterate_search. rewrite perform_inspire_literature_search_creates.
  rewrite (drain_created server fuel n query facets log content records
             (log ++ [search_request query facets]))
    by (apply fetch_page_responds; assumption).
  rewrite <- (app_nil_r records) at 2.
  apply (drain_pending server fuel content _ [] (Some TypeError) _ 0);
    [exact Hfuel | | simpl; lia].
  intros f m Hf _. destruct f as [| f]; [lia |].
  simpl. rewrite (has_next_scalar content links Hl Hs).
  eexists _, _, _. split; reflexivity.
Qed.

Lemma search_raises_on_scalar_links_witness :
  iterate_search (scripted [ok page_links_null] (status 404)) 1 3 "cn cms" None []
  = Some ([record 1; record 2], Some TypeError,
          [] ++ [search_request "cn cms" None]).
Proof.
  apply (search_raises_on_scalar_links
           (scripted [ok page_links_null] (status 404)) "cn cms" None []
           page_links_null [record 1; record 2] JNull).
  - exists (Build_response 200 (Some page_links_null)). repeat split; reflexivity.
  - eexists. split; reflexivity.
  - reflexivity.
  - exact I.
  - lia.
  - simpl. lia.
Defined.

(** ** Next links that never end *)

Section Cycle.

Variable server : server_t.
Variable content url : json.
Variable records : list json.
Hypothesis always : ∀ log rq, responds server log rq content.
Hypothesis has_link : page_next content (Some url).
Hypothesis has_records : page_records content records.

(** From the [while] test the generator either runs out of fuel or hands
    out a record of the same page again: it never stops and never raises. *)
Lemma while_loop_cycle fuel : ∀ log,
  while_loop server fuel content log = None
  ∨ ∃ record pending log',
      while_loop server fuel content log
      = Some (Yielded record, GSuspended content pending, log').
Proof.
  induction fuel as [| fuel IH]; intros log; [left; reflexivity |].
  assert (Hstep : while_loop server (S fuel) content log
                  = match records with
                    | [] => while_loop server fuel content
                              (log ++ [link_request url])
                    | record :: pending =>
                        Some (Yielded record, GSuspended content pending,
                              log ++ [link_request url])
                    end).
  { simpl. destruct (has_next_more content url has_link) as [-> Hurl].
    unfold bind. rewrite Hurl. simpl.
    rewrite (fetch_page_responds server _ _ content records (always _ _)
               has_records).
    reflexivity. }
  rewrite Hstep. destruct records as [| record pending]; [apply IH |].
  right. eauto.
Qed.

Lemma drain_cycle fuel n : ∀ pending log,
  drain server fuel n (GSuspended content pending) log = None.
Proof.
  induction n as [| n IH]; intros pending log; [reflexivity |].
  rewrite drain_S. destruct pending as [| record pending]; simpl.
  - destruct (while_loop_cycle fuel log)
      as [-> | (record & pending & log' & ->)]; [reflexivity |].
    simpl. rewrite IH. reflexivity.
  - rewrite IH. reflexivity.
Qed.

End Cycle.

(** When every page the server gives has a next link, the iteration over
    the search has no end: whatever the bounds put on the number of page
    fetches and of records taken, it has not finished within them.  The
    code has no limit of its own on the pages it follows. *)
Theorem search_never_ends_when_links_never_end server query facets content url
    records :
  (∀ log rq, responds server log rq content) →
  page_next content (Some url) →
  page_records content records →
  ∀ fuel n log,
    iterate_search server fuel n query facets log = None
    ∧ list_search server fuel n query facets log = None.
Proof.
  intros Halways Hlink Hrecs fuel n log.
  assert (Hd : drain server fuel n (GCreated query facets) log = None).
  { rewrite (drain_created server fuel n query facets log content records
               (log ++ [search_request query facets]))
      by (apply fetch_page_responds; [apply Halways | exact Hrecs]).
    apply (drain_cycle server content url records Halways Hlink Hrecs). }
  unfold iterate_search, list_search, py_list.
  rewrite perform_inspire_literature_search_creates, Hd. split; reflexivity.
Qed.

Lemma search_never_ends_when_links_never_end_witness :
  iterate_search (scripted [] (ok page_cycle)) 50 50 "cn cms" None [] = None
  ∧ list_search (scripted [] (ok page_cycle)) 50 50 "cn cms" None [] = None.
Proof.
  apply (search_never_ends_when_links_never_end (scripted [] (ok page_cycle))
           "cn cms" None page_cycle page_2_url [record 1]).
  - intros log rq. exists (Build_response 200 (Some page_cycle)).
    repeat split; reflexivity.
  - eexists. split; reflexivity.
  - eexists. split; reflexivity.
Defined.

(** ** The annual counts *)

Section Annual.

Variable server : server_t.
Variable py_str : json → string.

(** Whatever the server does, a count issues its request between one and
    ten times and nothing else. *)
Lemma count_log query facets log :
  ∃ n, (1 ≤ n ≤ 10)%nat
       ∧ (count_inspire_literature_search server query facets log).2
         = log ++ replicate n (count_request query facets).
Proof.
  unfold count_inspire_literature_search, on_exception.
  rewrite count_body_one_request.
  destruct (retry_one_request_log server (count_request query facets)
              (λ content, let? hits := getitem content "hits" in
                          getitem hits "total") (Nat.pred 10) log)
    as (n & Hn & Hlog).
  exists n. split; [simpl in Hn; lia | exact Hlog].
Qed.

Lemma count_of_year query totals year years log :
  yearly server query totals (year :: years) log →
  count_inspire_literature_search server query (Some (year_facets year)) log
  = (inr (totals year), log ++ [year_request query year]).
Proof.
  intros [(content & Hok & Hp) _]. simpl in Hp.
  destruct (getitem content "hits") as [| hits] eqn:Hh; [discriminate |].
  simpl in Hp.
  destruct (getitem hits "total") as [| total] eqn:Ht; [discriminate |].
  injection Hp as <-.
  apply (count_retried server query (Some (year_facets year)) log 0 content
           hits total);
    simpl; [intros i Hi; lia | rewrite app_nil_r; exact Hok | assumption ..| lia].
Qed.

Lemma append_rows_cons query year years result log :
  append_rows py_str (annual_counts_over server (year :: years) query)
    result log
  = match count_inspire_literature_search server query
            (Some (year_facets year)) log with
    | (inr hits, log') =>
        append_rows py_str (annual_counts_over server years query)
          (result ++ [row py_str year hits]) log'
    | (inl e, log') => (inl e, log')
    end.
Proof.
  simpl. unfold bind at 1, annual_counts_step, bind at 1.
  destruct (count_inspire_literature_search server query
              (Some (year_facets year)) log) as [[e | hits] l];
    reflexivity.
Qed.

Lemma append_rows_yearly query totals years : ∀ result log,
  yearly server query totals years log →
  append_rows py_str (annual_counts_over server years query) result log
  = (inr (result ++ map (λ year, row py_str year (totals year)) years),
     log ++ map (year_request query) years).
Proof.
  induction years as [| year years IH]; intros result log Hy.
  - simpl. unfold ret. rewrite !app_nil_r. reflexivity.
  - rewrite append_rows_cons,
      (count_of_year query totals year years log Hy).
    destruct Hy as [_ Hy]. rewrite (IH _ _ Hy). simpl.
    rewrite <- !app_assoc. reflexivity.
Qed.

Lemma append_rows_raises query totals before year after e log' :
  ∀ result log,
    yearly server query totals before log →
    count_inspire_literature_search server query (Some (year_facets year))
      (log ++ map (year_request query) before) = (inl e, log') →
    append_rows py_str
      (annual_counts_over server (before ++ year :: after) query) result log
    = (inl e, log').
Proof.
  induction before as [| y before IH]; intros result log Hy Hc.
  - simpl in Hc. rewrite app_nil_r in Hc.
    rewrite app_nil_l, append_rows_cons, Hc. reflexivity.
  - rewrite <- app_comm_cons, append_rows_cons,
      (count_of_year query totals y before log Hy).
    destruct Hy as [_ Hy]. apply IH; [exact Hy |].
    simpl in Hc. rewrite <- app_assoc. exact Hc.
Qed.

Lemma append_rows_requests query years : ∀ result log,
  ∃ ns, (length ns ≤ length years)%nat
        ∧ (years ≠ [] → ns ≠ [])
        ∧ Forall (λ n, (1 ≤ n ≤ 10)%nat) ns
        ∧ (append_rows py_str (annual_counts_over server years query)
             result log).2
          = log ++ repeated_requests query ns years
        ∧ (∀ rows,
             (append_rows py_str (annual_counts_over server years query)
                result log).1 = inr rows →
             length ns = length years).
Proof.
  induction years as [| year years IH]; intros result log.
  - exists []. simpl. rewrite app_nil_r.
    split; [lia | split; [congruence | split; [constructor | split]]];
      reflexivity.
  - destruct (count_log query (Some (year_facets year)) log) as (n & Hn & Hlog).
    rewrite append_rows_cons.
    destruct (count_inspire_literature_search server query
                (Some (year_facets year)) log) as [[e | hits] l];
      simpl in Hlog; subst l.
    + exists [n]. unfold repeated_requests. simpl. rewrite app_nil_r.
      split; [simpl; lia | split; [congruence | split; [| split]]];
        [constructor; [lia | constructor] | reflexivity | discriminate].
    + destruct (IH (result ++ [row py_str year hits])
                  (log ++ replicate n
                            (count_request query (Some (year_facets year)))))
        as (ns & Hlen & _ & Hall & Hl & Hok).
      exists (n :: ns). unfold repeated_requests in *. simpl.
      split; [simpl; lia | split; [congruence | split; [| split]]].
      * constructor; [lia | exact Hall].
      * rewrite Hl, <- app_assoc. reflexivity.
      * intros rows Hr. rewrite (Hok rows Hr). reflexivity.
Qed.

End Annual.

(** When the count of every year gets a good response, [get_annual_counts]
    returns the table: the two header lines and one line [year|total] per
    year of [YEARS] in their order, joined by newlines and without a final
    newline; thirteen requests are issued, one per year in that order, each
    with [earliest_date] set to [year--year]. *)
Theorem get_annual_counts_table server py_str query totals log :
  yearly server query totals YEARS log →
  get_annual_counts server py_str query log
    = (inr (join newline
              ("Year|Count" :: "---|---"
               :: map (λ year, pretty year +:+ "|" +:+ py_str (totals year))
                    YEARS)),
       log ++ map (year_request query) YEARS)
  ∧ length (map (year_request query) YEARS) = 13%nat
  ∧ (∀ year, param (year_request query year) "earliest_date"
             = Some (PStr (pretty year +:+ "--" +:+ pretty year))).
Proof.
  intros Hy. split; [| split; [reflexivity |]].
  - unfold get_annual_counts, format_annual_counts, annual_counts, bind.
    rewrite (append_rows_yearly server py_str query totals YEARS _ log Hy).
    reflexivity.
  - intros year. unfold year_request.
    rewrite param_count_request, facets_or_empty_Some, count_params_lookup.
    unfold year_facets. rewrite lookup_singleton_eq. reflexivity.
Qed.

Lemma always_42_yearly query log :
  yearly always_42 query (λ _, JInt 42) YEARS log.
Proof.
  generalize YEARS. intros years. revert log.
  induction years as [| year years IH]; intros log; [exact I |].
  split; [| apply IH].
  exists total_42. split; [| reflexivity].
  exists (Build_response 200 (Some total_42)). repeat split; reflexivity.
Defined.

Lemma get_annual_counts_table_witness :
  get_annual_counts always_42 str_plain "cn cms and not tc note" []
    = (inr (join newline
              ("Year|Count" :: "---|---"
               :: map (λ year, pretty year +:+ "|" +:+ str_plain (JInt 42))
                    YEARS)),
       [] ++ map (year_request "cn cms and not tc note") YEARS)
  ∧ length (map (year_request "cn cms and not tc note") YEARS) = 13%nat
  ∧ (∀ year, param (year_request "cn cms and not tc note" year) "earliest_date"
             = Some (PStr (pretty year +:+ "--" +:+ pretty year))).
Proof.
  apply (get_annual_counts_table always_42 str_plain "cn cms and not tc note"
           (λ _, JInt 42) []).
  apply always_42_yearly.
Defined.

(** When the count of some year raises (an HTTP error after its retries,
    or any other failure), [get_annual_counts] raises the same exception:
    no table is returned, not even for the years already counted, and the
    years after it are never asked for (the log is left where the failed
    count left it). *)
Theorem get_annual_counts_raises server py_str query totals log before year
    after e log' :
  YEARS = before ++ year :: after →
  yearly server query totals before log →
  count_inspire_literature_search server query (Some (year_facets year))
    (log ++ map (year_request query) before) = (inl e, log') →
  get_annual_counts server py_str query log = (inl e, log').
Proof.
  intros Hsplit Hy Hc.
  unfold get_annual_counts, format_annual_counts, annual_counts, bind.
  rewrite Hsplit.
  rewrite (append_rows_raises server py_str query totals before year after e
             log' _ log Hy Hc).
  reflexivity.
Qed.

Lemma get_annual_counts_raises_witness :
  get_annual_counts fails_from_third str_plain "cn cms" []
  = (inl (HTTPError 500),
     [year_request "cn cms" 2008; year_request "cn cms" 2009]
     ++ replicate 10 (year_request "cn cms" 2010)).
Proof.
  apply (get_annual_counts_raises fails_from_third str_plain "cn cms"
           (λ _, JInt 42) [] [2008; 2009] 2010 (py_range 2011 2021)).
  - reflexivity.
  - split; [| split; [| exact I]].
    + exists total_42. split; [| reflexivity].
      exists (Build_response 200 (Some total_42)). repeat split; reflexivity.
    + exists total_42. split; [| reflexivity].
      exists (Build_response 200 (Some total_42)). repeat split; reflexivity.
  - vm_compute. reflexivity.
Defined.

(** Whatever the server does, the requests of [get_annual_counts] are
    count requests for the years of [YEARS] in their order: for some
    first years (at least one, all thirteen when a table is returned),
    the request of the year is issued between one and ten times before the
    next year is asked for.  So a run issues at least one and at most 130
    requests, and none for a year after one whose count failed. *)
Theorem get_annual_counts_requests server py_str query log :
  ∃ ns, ns ≠ []
        ∧ (length ns ≤ 13)%nat
        ∧ Forall (λ n, (1 ≤ n ≤ 10)%nat) ns
        ∧ (get_annual_counts server py_str query log).2
          = log ++ repeated_requests query ns YEARS
        ∧ (∀ table, (get_annual_counts server py_str query log).1 = inr table →
                    length ns = 13%nat).
Proof.
  destruct (append_rows_requests server py_str query YEARS
              ["Year|Count"; "---|---"] log)
    as (ns & Hlen & Hne & Hall & Hlog & Hok).
  exists ns.
  split; [apply Hne; discriminate | split; [exact Hlen | split; [exact Hall |]]].
  unfold get_annual_counts, format_annual_counts, annual_counts, bind.
  destruct (append_rows py_str (annual_counts_over server YEARS query)
              ["Year|Count"; "---|---"] log) as [[e | rows] l];
    simpl in *; (split; [exact Hlog |]).
  - discriminate.
  - intros table _. apply (Hok rows). reflexivity.
Qed.

(** ** The printed report *)

Lemma append_assoc (a b c : string) : (a +:+ b) +:+ c = a +:+ (b +:+ c).
Proof.
  induction a as [| ch a IH]; [reflexivity |].
  change (String ch ((a +:+ b) +:+ c) = String ch (a +:+ (b +:+ c))).
  rewrite IH. reflexivity.
Qed.

Lemma annual_text_printed title result :
  ("## " +:+ title +:+ newline +:+ newline +:+ result +:+ newline +:+ newline)
  +:+ newline
  = section_text title result.
Proof. unfold section_text. rewrite !append_assoc. reflexivity. Qed.

Lemma citation_text_printed title total average :
  ("## " +:+ title +:+ newline +:+ newline
   +:+ "Total: " +:+ total +:+ newline
   +:+ "Average: " +:+ average +:+ newline +:+ newline)
  +:+ newline
  = section_text title
      ("Total: " +:+ total +:+ newline +:+ "Average: " +:+ average).
Proof. unfold section_text. rewrite !append_assoc. reflexivity. Qed.

Section Printing.

Variable section : string → string → M string.

(** A loop of [print_results] in which every section succeeds. *)
Lemma print_each_succeeds (printed : string → string → string)
    (rqs : string → list request) :
  (∀ title query log,
     ∃ text, section title query log = (inr text, log ++ rqs query)
             ∧ text +:+ newline = printed title query) →
  ∀ queries log out,
    print_each section queries log out
    = (inr tt,
       log ++ concat (map (λ tq, rqs tq.2) queries),
       out ++ map (λ tq, printed tq.1 tq.2) queries).
Proof.
  intros Hsec. induction queries as [| [title query] queries IH];
    intros log out; simpl.
  - rewrite !app_nil_r. reflexivity.
  - destruct (Hsec title query log) as (text & -> & ->).
    rewrite IH, <- !app_assoc. reflexivity.
Qed.

End Printing.

Section PrintedReport.

Variable server : server_t.
Variable py_str : json → string.

(** [get_citations] with a good response, as [citation_section] needs
    it. *)
Lemma get_citations_responds query log content stats total average :
  responds server log (citation_request query) content →
  getpath content
    ["aggregations"; "citation_summary"; "citations"; "buckets"; "all"]
    = inr stats →
  getpath stats ["citations_count"; "value"] = inr total →
  getpath stats ["average_citations"; "value"] = inr average →
  get_citations server query log
  = (inr (total, average), log ++ [citation_request query]).
Proof.
  intros Hok Hpath Ht Ha.
  unfold get_citations. rewrite first_and_last_YEARS. simpl lift.
  unfold bind at 1, ret. simpl fst; simpl snd. unfold bind.
  simpl in Hpath.
  destruct (getitem content "aggregations") as [| aggs] eqn:Haggs;
    [discriminate |]. simpl in Hpath.
  rewrite (aggregation_retried server query
             (Some (citation_facets 2008 2020)) log 0 content aggs);
    simpl; [| intros i Hi; lia | rewrite app_nil_r; exact Hok | assumption | lia].
  destruct (getitem aggs "citation_summary") as [| v1]; [discriminate |].
  simpl in *.
  destruct (getitem v1 "citations") as [| v2]; [discriminate |]. simpl in *.
  destruct (getitem v2 "buckets") as [| v3]; [discriminate |]. simpl in *.
  destruct (getitem v3 "all") as [| v4]; [discriminate |]. simpl in *.
  injection Hpath as ->.
  destruct (getitem stats "citations_count") as [| c]; [discriminate |].
  simpl in *.
  destruct (getitem c "value") as [| t]; [discriminate |]. simpl in *.
  injection Ht as ->.
  destruct (getitem stats "average_citations") as [| a]; [discriminate |].
  simpl in *.
  destruct (getitem a "value") as [| av]; [discriminate |]. simpl in *.
  injection Ha as ->. reflexivity.
Qed.

Lemma answers_with_yearly count_body facets_body query total :
  answers_with server count_body facets_body →
  getpath count_body ["hits"; "total"] = inr total →
  ∀ years log, yearly server query (λ _, total) years log.
Proof.
  intros [Hlit _] Ht. induction years as [| year years IH]; intros log;
    [exact I |].
  split; [| apply IH]. exists count_body. split; [| exact Ht].
  apply Hlit. reflexivity.
Qed.

End PrintedReport.

Section Runs.

Variable server : server_t.
Variable py_str : json → string.

Lemma one_request_returns_inv rq post log value log' :
  one_request server rq post log = (inr value, log') →
  ∃ content, responds server log rq content
             ∧ post content = inr value
             ∧ log' = log ++ [rq].
Proof.
  unfold one_request, get_content, bind, session_get, raise_for_status,
    response_json, responds.
  destruct (server log rq) as [e | resp]; simpl; [discriminate |].
  destruct (is_error_status (status_code resp)) eqn:Hst; simpl; [discriminate |].
  destruct (json_body resp) as [content |] eqn:Hb; simpl; [| discriminate].
  destruct (post content) as [e | v] eqn:Hp; simpl; [discriminate |].
  intros [= <- <-]. exists content. split; [| split; [exact Hp | reflexivity]].
  exists resp. auto.
Qed.

(** A retried call that returns has had its last request answered by a
    good response, after at most [more] earlier attempts. *)
Lemma retry_returns_inv rq post : ∀ more log value log',
  retry more (one_request server rq post) log = (inr value, log') →
  ∃ n content,
    (n ≤ more)%nat
    ∧ responds server (log ++ replicate n rq) rq content
    ∧ post content = inr value
    ∧ log' = log ++ replicate (S n) rq.
Proof.
  induction more as [| more IH]; intros log value log' H; simpl in H;
    pose proof (one_request_log server rq post log) as Hl;
    destruct (one_request server rq post log) as [[e | a] l] eqn:Hone;
    simpl in Hl; subst l.
  - destruct (is_HTTPError e); discriminate.
  - injection H as <- <-.
    destruct (one_request_returns_inv _ _ _ _ _ Hone) as (content & Hok & Hp & _).
    exists 0%nat, content. simpl. rewrite app_nil_r. auto.
  - destruct (is_HTTPError e); [| discriminate].
    apply IH in H as (n & content & Hn & Hok & Hp & ->).
    exists (S n), content. simpl. rewrite <- !app_assoc in *.
    split; [lia | auto].
  - injection H as <- <-.
    destruct (one_request_returns_inv _ _ _ _ _ Hone) as (content & Hok & Hp & _).
    exists 0%nat, content. simpl. rewrite app_nil_r.
    split; [lia | auto].
Qed.

Lemma count_returns_inv query facets log value log' :
  count_inspire_literature_search server query facets log = (inr value, log') →
  ∃ content, ends_well server (count_request query facets) log content log'
             ∧ getpath content ["hits"; "total"] = inr value.
Proof.
  unfold count_inspire_literature_search, on_exception.
  rewrite count_body_one_request. intros H.
  apply retry_returns_inv in H as (n & content & Hn & Hok & Hp & ->).
  exists content. split; [exists n; simpl in Hn; split; [lia | auto] |].
  simpl. destruct (getitem content "hits") as [| hits]; simpl in *;
    [discriminate |].
  rewrite Hp. reflexivity.
Qed.

Lemma aggregation_returns_inv query facets log value log' :
  perform_inspire_literature_aggregation server query facets log
    = (inr value, log') →
  ∃ content, ends_well server (aggregation_request query facets) log content log'
             ∧ getitem content "aggregations" = inr value.
Proof.
  unfold perform_inspire_literature_aggregation, on_exception.
  rewrite aggregation_body_one_request. intros H.
  apply retry_returns_inv in H as (n & content & Hn & Hok & Hp & ->).
  exists content. split; [exists n; simpl in Hn; split; [lia | auto] | exact Hp].
Qed.

Lemma append_rows_returns_inv query years : ∀ result log rows log',
  append_rows py_str (annual_counts_over server years query) result log
    = (inr rows, log') →
  ∃ values,
    counted server query years values log log'
    ∧ rows = result ++ zip_with (λ year value,
                                   pretty year +:+ "|" +:+ py_str value)
                         years values.
Proof.
  induction years as [| year years IH]; intros result log rows log' H.
  - simpl in H. injection H as <- <-. exists []. simpl.
    rewrite app_nil_r. auto.
  - rewrite append_rows_cons in H.
    destruct (count_inspire_literature_search server query
                (Some (year_facets year)) log) as [[e | value] log1] eqn:Hc;
      [discriminate |].
    apply count_returns_inv in Hc as (content & Hend & Hp).
    apply IH in H as (values & Hcounted & ->).
    exists (value :: values). split.
    + exists content, log1. auto.
    + simpl. rewrite <- app_assoc. reflexivity.
Qed.

Lemma annual_section_printed_inv title query log text log' :
  annual_section server py_str title query log = (inr text, log') →
  annual_section_printed server py_str title query log (text +:+ newline) log'.
Proof.
  unfold annual_section, get_annual_counts, format_annual_counts,
    annual_counts, bind.
  destruct (append_rows py_str (annual_counts_over server YEARS query)
              ["Year|Count"; "---|---"] log) as [[e | rows] l] eqn:Hrows;
    [discriminate |].
  simpl. intros [= <- <-].
  apply append_rows_returns_inv in Hrows as (values & Hcounted & ->).
  exists values. split; [exact Hcounted |].
  apply annual_text_printed.
Qed.

Lemma annual_section_raises_inv title query log e log' :
  annual_section server py_str title query log = (inl e, log') →
  get_annual_counts server py_str query log = (inl e, log').
Proof.
  unfold annual_section, bind.
  destruct (get_annual_counts server py_str query log) as [[e' | result] l];
    [intros [= <- <-]; reflexivity | discriminate].
Qed.

Lemma get_citations_returns_inv query log total average log' :
  get_citations server query log = (inr (total, average), log') →
  ∃ content stats,
    ends_well server (citation_request query) log content log'
    ∧ getpath content
        ["aggregations"; "citation_summary"; "citations"; "buckets"; "all"]
      = inr stats
    ∧ getpath stats ["citations_count"; "value"] = inr total
    ∧ getpath stats ["average_citations"; "value"] = inr average.
Proof.
  intros H. unfold get_citations in H. rewrite first_and_last_YEARS in H.
  simpl lift in H. unfold bind at 1, ret in H. simpl fst in H; simpl snd in H.
  unfold bind in H.
  destruct (perform_inspire_literature_aggregation server query
              (Some (citation_facets 2008 2020)) log)
    as [[e | aggs] l] eqn:Hagg; [discriminate |].
  apply aggregation_returns_inv in Hagg as (content & Hend & Haggs).
  destruct (getitem aggs "citation_summary") as [| v1] eqn:H1;
    simpl in H; [discriminate |].
  destruct (getitem v1 "citations") as [| v2] eqn:H2; simpl in H;
    [discriminate |].
  destruct (getitem v2 "buckets") as [| v3] eqn:H3; simpl in H;
    [discriminate |].
  destruct (getitem v3 "all") as [| stats] eqn:H4; simpl in H;
    [discriminate |].
  destruct (getitem stats "citations_count") as [| c] eqn:H5; simpl in H;
    [discriminate |].
  destruct (getitem c "value") as [| t] eqn:H6; simpl in H; [discriminate |].
  destruct (getitem stats "average_citations") as [| a] eqn:H7; simpl in H;
    [discriminate |].
  destruct (getitem a "value") as [| av] eqn:H8; simpl in H; [discriminate |].
  injection H as <- <- <-.
  exists content, stats.
  split; [exact Hend | split; [| split]].
  - simpl. rewrite Haggs. simpl. rewrite H1. simpl. rewrite H2. simpl.
    rewrite H3. simpl. rewrite H4. reflexivity.
  - simpl. rewrite H5. simpl. rewrite H6. reflexivity.
  - simpl. rewrite H7. simpl. rewrite H8. reflexivity.
Qed.

Lemma citation_section_printed_inv title query log text log' :
  citation_section server py_str title query log = (inr text, log') →
  citation_section_printed server py_str title query log (text +:+ newline)
    log'.
Proof.
  unfold citation_section, bind.
  destruct (get_citations server query log) as [[e | [total average]] l]
    eqn:Hg; [discriminate |].
  simpl. intros [= <- <-].
  apply get_citations_returns_inv in Hg
    as (content & stats & Hend & Hpath & Ht & Ha).
  exists content, stats, total, average.
  split; [exact Hend | split; [exact Hpath | split; [exact Ht | split]]];
    [exact Ha |].
  apply citation_text_printed.
Qed.

Lemma citation_section_raises_inv title query log e log' :
  citation_section server py_str title query log = (inl e, log') →
  get_citations server query log = (inl e, log').
Proof.
  unfold citation_section, bind.
  destruct (get_citations server query log) as [[e' | stats] l];
    [intros [= <- <-]; reflexivity | discriminate].
Qed.

End Runs.

Section PrintLoop.

Variable section : string → string → M string.
Variable printed
  : string → string → list request → string → list request → Prop.
Hypothesis section_printed : ∀ title query log text log',
  section title query log = (inr text, log') →
  printed title query log (text +:+ newline) log'.

(** A loop of [print_results], whatever its sections do: it prints the
    sections of the first entries, each from the log the one before left,
    and either gets through all of them or stops at the first whose
    computation raises. *)
Lemma print_each_run : ∀ queries log out,
  ∃ texts logk,
    (print_each section queries log out).2 = out ++ texts
    ∧ printed_in_order printed queries texts log logk
    ∧ (((print_each section queries log out).1 = (inr tt, logk)
        ∧ length texts = length queries)
       ∨ ∃ e title query,
           (print_each section queries log out).1.1 = inl e
           ∧ queries !! length texts = Some (title, query)
           ∧ section title query logk
             = (inl e, (print_each section queries log out).1.2)).
Proof.
  induction queries as [| [title query] queries IH]; intros log out; simpl.
  - exists [], log. simpl. rewrite app_nil_r. auto.
  - destruct (section title query log) as [[e | text] log1] eqn:Hs; simpl.
    + exists [], log. simpl. rewrite app_nil_r.
      split; [reflexivity | split; [reflexivity |]].
      right. exists e, title, query. auto.
    + destruct (IH log1 (out ++ [text +:+ newline]))
        as (texts & logk & Hout & Hrun & Hend).
      exists ((text +:+ newline) :: texts), logk.
      split; [rewrite Hout, <- app_assoc; reflexivity | split].
      * exists log1. split; [apply section_printed; exact Hs | exact Hrun].
      * destruct Hend as [[Hr Hlen] | (e & t & q & He & Hq & Hsec)].
        -- left. split; [exact Hr | simpl; rewrite Hlen; reflexivity].
        -- right. exists e, t, q. auto.
Qed.

End PrintLoop.

Lemma concat_map_singleton {A B} (f : A → B) (l : list A) :
  concat (map (λ x, [f x]) l) = map f l.
Proof. induction l as [| x l IH]; simpl; [reflexivity | rewrite IH; reflexivity]. Qed.

(** Against a server that answers every count with one good body and
    every aggregation with another, [print_results] ends normally having
    printed eighteen sections: the ten tables in the order of
    [annual_queries], then the eight citation summaries in the order of
    [citation_queries], each under its title; it has issued 138 requests,
    thirteen counts per table and one aggregation per summary, in that
    order. *)
Theorem print_results_whole_report server py_str count_body facets_body total
    stats cites average log out :
  answers_with server count_body facets_body →
  getpath count_body ["hits"; "total"] = inr total →
  getpath facets_body
    ["aggregations"; "citation_summary"; "citations"; "buckets"; "all"]
    = inr stats →
  getpath stats ["citations_count"; "value"] = inr cites →
  getpath stats ["average_citations"; "value"] = inr average →
  print_results server py_str log out
    = (inr tt,
       log ++ (concat (map (λ tq, map (year_request tq.2) YEARS) annual_queries)
               ++ map (λ tq, citation_request tq.2) citation_queries),
       out ++ (map (λ tq, section_text tq.1
                            (join newline
                               ("Year|Count" :: "---|---"
                                :: map (λ year, pretty year +:+ "|"
                                                +:+ py_str total) YEARS)))
                 annual_queries
               ++ map (λ tq, section_text tq.1
                               ("Total: " +:+ py_str cites +:+ newline
                                +:+ "Average: " +:+ py_str average))
                    citation_queries))
  ∧ length (concat (map (λ tq, map (year_request tq.2) YEARS) annual_queries)
            ++ map (λ tq, citation_request tq.2) citation_queries) = 138%nat
  ∧ length annual_queries = 10%nat ∧ length citation_queries = 8%nat.
Proof.
  intros Hans Ht Hpath Hc Ha.
  split; [| split; [vm_compute; reflexivity | split; reflexivity]].
  unfold print_results.
  rewrite (print_each_succeeds (annual_section server py_str)
             (λ title _, section_text title
                (join newline
                   ("Year|Count" :: "---|---"
                    :: map (λ year, pretty year +:+ "|" +:+ py_str total) YEARS)))
             (λ query, map (year_request query) YEARS)).
  - rewrite (print_each_succeeds (citation_section server py_str)
               (λ title _, section_text title
                  ("Total: " +:+ py_str cites +:+ newline
                   +:+ "Average: " +:+ py_str average))
               (λ query, [citation_request query])).
    + rewrite concat_map_singleton, <- !app_assoc. reflexivity.
    + intros title query log0. eexists. split.
      * unfold citation_section, bind.
        rewrite (get_citations_responds server query log0 facets_body stats
                   cites average);
          [reflexivity | | assumption ..].
        destruct Hans as [_ Hfac]. apply Hfac. reflexivity.
      * apply citation_text_printed.
  - intros title query log0. eexists. split.
    + unfold annual_section, get_annual_counts, format_annual_counts,
        annual_counts, bind.
      rewrite (append_rows_yearly server py_str query (λ _, total) YEARS _ log0)
        by (apply (answers_with_yearly server count_body facets_body);
            assumption).
      reflexivity.
    + apply annual_text_printed.
Qed.

Lemma by_endpoint_answers : answers_with by_endpoint total_42 facets_body_0.
Proof.
  split; intros log rq Hurl; unfold responds, by_endpoint; rewrite Hurl; simpl.
  - exists (Build_response 200 (Some total_42)). repeat split; reflexivity.
  - exists (Build_response 200 (Some facets_body_0)). repeat split; reflexivity.
Defined.

Lemma print_results_whole_report_witness :
  print_results by_endpoint str_plain [] []
    = (inr tt,
       [] ++ (concat (map (λ tq, map (year_request tq.2) YEARS) annual_queries)
              ++ map (λ tq, citation_request tq.2) citation_queries),
       [] ++ (map (λ tq, section_text tq.1
                           (join newline
                              ("Year|Count" :: "---|---"
                               :: map (λ year, pretty year +:+ "|"
                                               +:+ str_plain (JInt 42)) YEARS)))
                annual_queries
              ++ map (λ tq, section_text tq.1
                              ("Total: " +:+ str_plain (JInt 1234) +:+ newline
                               +:+ "Average: " +:+ str_plain (JFloat "12.5")))
                   citation_queries))
  ∧ length (concat (map (λ tq, map (year_request tq.2) YEARS) annual_queries)
            ++ map (λ tq, citation_request tq.2) citation_queries) = 138%nat
  ∧ length annual_queries = 10%nat ∧ length citation_queries = 8%nat.
Proof.
  apply (print_results_whole_report by_endpoint str_plain total_42 facets_body_0
           (JInt 42)
           (JObj [("citations_count", JObj [("value", JInt 1234)]);
                  ("average_citations", JObj [("value", JFloat "12.5")])])
           (JInt 1234) (JFloat "12.5") [] []).
  - exact by_endpoint_answers.
  - reflexivity.
  - reflexivity.
  - reflexivity.
  - reflexivity.
Defined.

(** Whatever the server does, what [print_results] has printed when it
    ends is, in the order of [annual_queries] followed by
    [citation_queries], the whole section of each of some first entries:
    under its title, the table with a line for every year of [YEARS], or
    the total and the average, every value being what a good response to
    the request for it gave, and the requests of a section all made from
    the log the section before left.  Nothing is printed of a section
    whose computation raises: the run then ends with that exception, by
    [get_annual_counts] or [get_citations] of the first entry not
    printed.  It ends normally exactly when all eighteen sections are
    printed. *)
Theorem print_results_prints_whole_sections server py_str log out :
  ∃ texts1 texts2 log1 log2,
    (print_results server py_str log out).2 = out ++ texts1 ++ texts2
    ∧ printed_in_order (annual_section_printed server py_str)
        annual_queries texts1 log log1
    ∧ printed_in_order (citation_section_printed server py_str)
        citation_queries texts2 log1 log2
    ∧ (((print_results server py_str log out).1 = (inr tt, log2)
        ∧ length texts1 = 10%nat ∧ length texts2 = 8%nat)
       ∨ (∃ e title query,
            (print_results server py_str log out).1.1 = inl e
            ∧ texts2 = []
            ∧ annual_queries !! length texts1 = Some (title, query)
            ∧ get_annual_counts server py_str query log1
              = (inl e, (print_results server py_str log out).1.2))
       ∨ (∃ e title query,
            (print_results server py_str log out).1.1 = inl e
            ∧ length texts1 = 10%nat
            ∧ citation_queries !! length texts2 = Some (title, query)
            ∧ get_citations server query log2
              = (inl e, (print_results server py_str log out).1.2))).
Proof.
  destruct (print_each_run (annual_section server py_str)
              (annual_section_printed server py_str)
              (annual_section_printed_inv server py_str)
              annual_queries log out)
    as (texts1 & log1 & Hout1 & Hrun1 & Hend1).
  unfold print_results.
  destruct Hend1 as [[Hr1 Hlen1] | (e & title & query & He & Hq & Hsec)].
  - destruct (print_each (annual_section server py_str) annual_queries log out)
      as [[r l] out1]. simpl in Hout1, Hr1. injection Hr1 as -> ->. subst out1.
    destruct (print_each_run (citation_section server py_str)
                (citation_section_printed server py_str)
                (citation_section_printed_inv server py_str)
                citation_queries log1 (out ++ texts1))
      as (texts2 & log2 & Hout2 & Hrun2 & Hend2).
    exists texts1, texts2, log1, log2.
    split; [rewrite Hout2, <- app_assoc; reflexivity |].
    split; [exact Hrun1 | split; [exact Hrun2 |]].
    destruct Hend2 as [[Hr2 Hlen2] | (e & title & query & He & Hq & Hsec)].
    + left. auto.
    + right; right. exists e, title, query.
      split; [exact He | split; [exact Hlen1 | split; [exact Hq |]]].
      apply (citation_section_raises_inv server py_str title). exact Hsec.
  - destruct (print_each (annual_section server py_str) annual_queries log out)
      as [[r l] out1]. simpl in Hout1, He, Hsec. subst r out1.
    exists texts1, [], log1, log1.
    split; [rewrite app_nil_r; reflexivity |].
    split; [exact Hrun1 | split; [reflexivity |]].
    right; left. exists e, title, query.
    split; [reflexivity | split; [reflexivity | split; [exact Hq |]]].
    apply (annual_section_raises_inv server py_str title). exact Hsec.
Qed.

(** A run cut short: the first table is printed whole, the second is not
    printed at all although two of its counts were answered. *)
Example print_results_stops_between_sections :
  print_results (scripted (replicate 15 (ok total_42)) (status 500))
      str_plain [] []
  = (inl (HTTPError 500),
     map (year_request "tc core") YEARS
     ++ [year_request "tc core and doi:*" 2008;
         year_request "tc core and doi:*" 2009]
     ++ replicate 10 (year_request "tc core and doi:*" 2010),
     [section_text "Total HEP"
        (join newline
           ("Year|Count" :: "---|---"
            :: map (λ year, pretty year +:+ "|42") YEARS))]).
Proof. vm_compute. reflexivity. Qed.

(** ** The shape of the table *)

Lemma count_newlines_append (a b : string) :
  count_newlines (a +:+ b) = (count_newlines a + count_newlines b)%nat.
Proof.
  induction a as [| c a IH]; [reflexivity |].
  change (count_newlines (String c (a +:+ b))
          = (count_newlines (String c a) + count_newlines b)%nat).
  simpl. rewrite IH. lia.
Qed.

Lemma count_newlines_join (parts : list string) :
  Forall (λ part, count_newlines part = 0%nat) parts →
  count_newlines (join newline parts) = Nat.pred (length parts).
Proof.
  unfold join. induction 1 as [| part parts Hpart _ IH]; [reflexivity |].
  destruct parts as [| part' parts]; [simpl; exact Hpart |].
  change (String.concat newline (part :: part' :: parts))
    with (part +:+ newline +:+ String.concat newline (part' :: parts)).
  rewrite !count_newlines_append, Hpart, IH. reflexivity.
Qed.

Lemma pretty_N_char_no_newline (x : N) :
  Ascii.eqb (pretty_N_char x) "010"%char = false.
Proof. unfold pretty_N_char. repeat case_match; reflexivity. Qed.

Lemma pretty_N_go_newlines (x : N) : ∀ s,
  count_newlines (pretty_N_go x s) = count_newlines s.
Proof.
  induction (N.lt_wf_0 x) as [x _ IH]; intros s.
  destruct (decide (x = 0)%N) as [-> | Hx]; [reflexivity |].
  rewrite pretty_N_go_step by lia.
  rewrite IH by (apply N.div_lt; lia).
  simpl. rewrite pretty_N_char_no_newline. reflexivity.
Qed.

Lemma pretty_N_newlines (x : N) : count_newlines (pretty x) = 0%nat.
Proof.
  unfold pretty, pretty_N. case_decide; [reflexivity |].
  apply pretty_N_go_newlines.
Qed.

(** A year written in decimal has no line break. *)
Lemma pretty_Z_newlines (x : Z) : count_newlines (pretty x) = 0%nat.
Proof.
  destruct x as [| p | p].
  - reflexivity.
  - exact (pretty_N_newlines (N.pos p)).
  - change (count_newlines ("-" +:+ pretty (N.pos p)) = 0%nat).
    rewrite count_newlines_append, pretty_N_newlines. reflexivity.
Qed.

Lemma append_rows_of_items py_str (items : list (Z * json)) : ∀ result log,
  append_rows py_str (map ret items) result log
  = (inr (result ++ map (λ item, pretty item.1 +:+ "|" +:+ py_str item.2) items),
     log).
Proof.
  induction items as [| item items IH]; intros result log; simpl.
  - unfold ret. rewrite app_nil_r. reflexivity.
  - unfold bind at 1, ret at 1. rewrite IH, <- app_assoc. reflexivity.
Qed.

(** [format_annual_counts] over items that are already there (a list of
    pairs) issues no request and returns the two header lines followed by
    one line per item, in order, without a final line break; when no
    count is rendered with a line break in it, the table has exactly one
    line break per item plus one, so one line per item under the two
    header lines.  With no item it is the header alone. *)
Theorem format_annual_counts_lines py_str (items : list (Z * json)) log :
  (∀ item, item ∈ items → count_newlines (py_str item.2) = 0%nat) →
  ∃ table,
    format_annual_counts py_str (map ret items) log = (inr table, log)
    ∧ table = join newline
                ("Year|Count" :: "---|---"
                 :: map (λ item, pretty item.1 +:+ "|" +:+ py_str item.2) items)
    ∧ count_newlines table = S (length items)
    ∧ (items = [] → table = "Year|Count" +:+ newline +:+ "---|---").
Proof.
  intros Hcells. eexists. split; [| split; [reflexivity | split]].
  - unfold format_annual_counts, bind. rewrite append_rows_of_items.
    reflexivity.
  - rewrite count_newlines_join.
    + simpl. rewrite length_map. reflexivity.
    + repeat (constructor; [reflexivity |]).
      apply Forall_forall. intros line Hline.
      apply list_elem_of_fmap in Hline as (item & -> & Hitem).
      rewrite !count_newlines_append, pretty_Z_newlines, (Hcells item Hitem).
      reflexivity.
  - intros ->. reflexivity.
Qed.

Lemma format_annual_counts_lines_witness :
  ∃ table,
    format_annual_counts str_plain (map ret [(2008, JInt 7); (2009, JInt 12)]) []
      = (inr table, [])
    ∧ table = join newline
                ("Year|Count" :: "---|---"
                 :: map (λ item : Z * json,
                           pretty item.1 +:+ "|" +:+ str_plain item.2)
                      [(2008, JInt 7); (2009, JInt 12)])
    ∧ count_newlines table = S (length [(2008, JInt 7); (2009, JInt 12)])
    ∧ ([(2008, JInt 7); (2009, JInt 12)] = [] →
       table = "Year|Count" +:+ newline +:+ "---|---").
Proof.
  apply (format_annual_counts_lines str_plain
           [(2008, JInt 7); (2009, JInt 12)] []).
  intros item Hitem.
  apply list_elem_of_In in Hitem. simpl in Hitem.
  destruct Hitem as [<- | [<- | []]]; reflexivity.
Defined.
